(** * Pyllow: the request-replay orchestrator and its token manager

    A shallow embedding of [pyllow/request.py], [pyllow/token.py] and
    [pyllow/__init__.py].  Python objects are records, dictionaries are
    finite maps, and a method is a function in a state-and-exception monad:
    a raised exception keeps the state reached so far, as in Python.  The
    outside world (the HTTP library, the file system, the clock) is an
    interface, and so is the builtin [str.upper]; every call to the outside
    world is also recorded in a trace of observable events. *)

From Stdlib Require Import ZArith QArith Qcanon.
From stdpp Require Import base tactics option list strings gmap pretty.

Set Warnings "-register-all".

Local Open Scope Z_scope.
Local Open Scope string_scope.

(** ** Python values *)

(** [Any]: what a JSON document or a payload entry can hold. *)
Inductive pyval : Type :=
| PNone
| PBool (b : bool)
| PInt (n : Z)
| PStr (s : string)
| PList (l : list pyval)
| PDict (d : gmap string pyval).

(** [Dict[str, Any]] *)
Abbreviation pydict := (gmap string pyval).

(** [isinstance(data, dict)] followed by [data.get(key)]: [dict.get] gives
    [None] for an absent key. *)
Definition dict_get (d : pydict) (key : string) : pyval :=
  default PNone (d !! key).

(** Truth value of an [Optional[str]]: [None] and the empty string are
    falsy. *)
Definition truthy_str (o : option string) : bool :=
  match o with
  | Some s => negb (String.eqb s EmptyString)
  | None => false
  end.

(** [str(x)] for an [Optional[str]], as an f-string renders it. *)
Definition format_opt_str (o : option string) : string :=
  match o with
  | Some s => s
  | None => "None"
  end.

(** [str.upper], a builtin of the language that follows the case tables of
    Unicode: the program is read for whatever function it is. *)
Class Str : Type := { upper : string -> string }.

(** [message in content] on [str]: substring test. *)
Fixpoint str_contains (content message : string) : bool :=
  String.prefix message content ||
  match content with
  | EmptyString => false
  | String _ rest => str_contains rest message
  end.

(** ** Exceptions *)

Inductive exn_class : Type :=
| RequestException
| IOError
| JSONDecodeError
| ZeroDivisionError
| OverflowError
| AttributeError
| Exception.

Record exn : Type := MkExn { exn_cls : exn_class; exn_msg : string }.

(** [isinstance(e, requests.RequestException)] *)
Definition is_RequestException (e : exn) : bool :=
  match exn_cls e with RequestException => true | _ => false end.

(** [isinstance(e, IOError)]; [requests.RequestException] derives from it. *)
Definition is_IOError (e : exn) : bool :=
  match exn_cls e with IOError | RequestException => true | _ => false end.

(** ** HTTP messages *)

Record Request : Type := MkRequest {
  req_method : string;
  req_url : string;
  req_headers : gmap string string;
  req_data : option pydict;
  req_params : option pydict;
  req_verify : bool
}.

(** A [requests.Response]: [json] is the outcome of [response.json()],
    [None] when the body does not parse and the call raises. *)
Record Response : Type := MkResponse {
  status_code : Z;
  text : string;
  json : option pyval
}.

(** ** Observable events *)

Inductive event : Type :=
| Sent (r : Request)
| LogError (msg : string)
| LogInfo (msg : string)
| LogProgress (completed total : Z)
| Slept (seconds : Qc)
| Wrote (path mode : string) (lines : list string).

(** ** State and exceptions *)

Inductive result (A : Type) : Type :=
| Return (a : A)
| Raise (e : exn).
Arguments Return {A} a.
Arguments Raise {A} e.

Definition M (St A : Type) : Type := St -> result A * St.

Definition ret {St A} (a : A) : M St A := fun s => (Return a, s).

Definition raise {St A} (e : exn) : M St A := fun s => (Raise e, s).

Definition bind {St A B} (m : M St A) (k : A -> M St B) : M St B :=
  fun s =>
    match m s with
    | (Return a, s') => k a s'
    | (Raise e, s') => (Raise e, s')
    end.

(** [try: m  except <class> as e: h e], the handler taking the exceptions
    that [catches] accepts. *)
Definition try_except {St A} (m : M St A) (catches : exn -> bool)
    (h : exn -> M St A) : M St A :=
  fun s =>
    match m s with
    | (Return a, s') => (Return a, s')
    | (Raise e, s') => if catches e then h e s' else (Raise e, s')
    end.

Definition modify {St} (f : St -> St) : M St unit := fun s => (Return tt, f s).

Notation "'let*' x ':=' m 'in' k" := (bind m (fun x => k))
  (at level 10, x name, m at level 100, k at level 200).
Notation "m1 '>>' m2" := (bind m1 (fun _ => m2))
  (at level 100, m2 at level 200, right associativity).

(** [for x in xs: body x] *)
Fixpoint for_each {St A} (xs : list A) (body : A -> M St unit) : M St unit :=
  match xs with
  | [] => ret tt
  | x :: rest => body x >> for_each rest body
  end.

(** [for _ in range(n): body] *)
Fixpoint for_range {St} (n : nat) (body : M St unit) : M St unit :=
  match n with
  | O => ret tt
  | S n' => body >> for_range n' body
  end.

(** ** The outside world *)

(** What the program calls and does not define: [requests.request],
    [os.path.exists], writing the lines of a file opened in a mode, and
    [time.sleep], which raises on a duration it cannot represent. *)
Class Platform (W : Type) : Type := {
  requests_request : Request -> W -> result Response * W;
  os_path_exists : string -> W -> bool;
  write_lines : string -> string -> list string -> W -> result unit * W;
  time_sleep : Qc -> W -> result unit * W
}.

Record Env (W : Type) : Type := MkEnv { world : W; trace : list event }.
Arguments MkEnv {W} world trace.
Arguments world {W} e.
Arguments trace {W} e.

Definition emit {W} (ev : event) : M (Env W) unit :=
  modify (fun e => MkEnv (world e) (trace e ++ [ev])).

(** Modelled from the spec: the logger of [pyllow/config.py] (and the
    standard one [request.py] imports) is a sink of lines that never fails. *)
Definition logging_error {W} (msg : string) : M (Env W) unit := emit (LogError msg).
Definition logging_info {W} (msg : string) : M (Env W) unit := emit (LogInfo msg).

(** ** [pyllow/request.py] *)

Section Program.
Context {W : Type} `{!Platform W} {Str0 : Str}.

(** The call into the HTTP library, recorded in the trace. *)
Definition http_call (r : Request) : M (Env W) Response :=
  emit (Sent r) >>
  fun e =>
    let '(res, w') := requests_request r (world e) in
    (res, MkEnv w' (trace e)).

(** [make_request(method, url, headers, data, params, verify_ssl)] *)
Definition make_request (method url : string) (headers : gmap string string)
    (data params : option pydict) (verify_ssl : bool) : M (Env W) Response :=
  try_except
    (http_call (MkRequest method url headers data params verify_ssl))
    is_RequestException
    (fun e => logging_error ("Request failed: " ++ exn_msg e) >> raise e).

(** ** [pyllow/token.py] *)

Record Token : Type := MkToken {
  token_endpoint : string;
  client_id : string;
  client_secret : string;
  refresh_token : string;
  access_token : option string;
  access_token_path : list string;
  refresh_token_path : list string
}.

(** [Token.__init__]; the two paths default to [["access_token"]] and
    [["refresh_token"]]. *)
Definition Token_init (endpoint secret refresh id : string)
    (apath rpath : option (list string)) : Token :=
  {| token_endpoint := endpoint;
     client_id := id;
     client_secret := secret;
     refresh_token := refresh;
     access_token := Some EmptyString;
     access_token_path := default ["access_token"] apath;
     refresh_token_path := default ["refresh_token"] rpath |}.

Definition set_access_token (v : option string) (t : Token) : Token :=
  {| token_endpoint := token_endpoint t;
     client_id := client_id t;
     client_secret := client_secret t;
     refresh_token := refresh_token t;
     access_token := v;
     access_token_path := access_token_path t;
     refresh_token_path := refresh_token_path t |}.

Definition set_refresh_token (v : string) (t : Token) : Token :=
  {| token_endpoint := token_endpoint t;
     client_id := client_id t;
     client_secret := client_secret t;
     refresh_token := v;
     access_token := access_token t;
     access_token_path := access_token_path t;
     refresh_token_path := refresh_token_path t |}.

(** [Token._extract_value(data, path)] *)
Fixpoint _extract_value (data : pyval) (path : list string) : option string :=
  match path with
  | key :: rest =>
      match data with
      | PDict d => _extract_value (dict_get d key) rest
      | _ => None
      end
  | [] =>
      match data with
      | PStr s => Some s
      | _ => None
      end
  end.

(** A token method runs on the token and the environment. *)
Definition in_env {X A} (m : M (Env W) A) : M (X * Env W) A :=
  fun s =>
    let '(r, e') := m (snd s) in (r, (fst s, e')).

Definition update_self {X} (f : X -> X) : M (X * Env W) unit :=
  modify (fun s => (f (fst s), snd s)).

Definition read_self {X} : M (X * Env W) X :=
  fun s => (Return (fst s), s).

(** The payload of the refresh-token grant. *)
Definition refresh_payload (t : Token) : pydict :=
  <["client_secret" := PStr (client_secret t)]>
  (<["client_id" := PStr (client_id t)]>
  (<["refresh_token" := PStr (refresh_token t)]>
  (<["grant_type" := PStr "refresh_token"]> ∅))).

(** [response.json()] *)
Definition response_json {St} (r : Response) : M St pyval :=
  match json r with
  | Some v => ret v
  | None => raise (MkExn JSONDecodeError "Expecting value")
  end.

(** [Token.refresh_access_token(headers)] *)
Definition refresh_access_token (headers : gmap string string)
    : M (Token * Env W) (option string) :=
  let* self := read_self in
  let payload := refresh_payload self in
  try_except
    (let* response :=
       in_env (make_request "POST" (token_endpoint self) headers
                 (Some payload) None true) in
     if (status_code response =? 200)%Z then
       let* token_data := response_json response in
       update_self (set_access_token
         (_extract_value token_data (access_token_path self))) >>
       let new_refresh_token :=
         _extract_value token_data (refresh_token_path self) in
       (match new_refresh_token with
        | Some new =>
            if truthy_str new_refresh_token
            then update_self (set_refresh_token new)
            else ret tt
        | None => ret tt
        end) >>
       let* self' := read_self in
       ret (access_token self')
     else
       in_env (logging_error ("Token refresh failed with status code "
                                ++ pretty (status_code response))) >>
       raise (MkExn Exception "Token refresh failed"))
    (fun _ => true)
    (fun e => in_env (logging_error ("Error refreshing token: " ++ exn_msg e)) >>
              raise e).

(** ** [pyllow/__init__.py] *)

(** A condition dictionary; an absent key and a [None] value read alike. *)
Record Condition : Type := MkCondition {
  status_codes : option (list Z);
  messages : option (list string);
  cond_output_file : option string
}.

(** [{"condition": condition, "results": [...]}] *)
Record ConditionResult : Type := MkConditionResult {
  condition : Condition;
  cr_results : list string
}.

Record Pyllow : Type := MkPyllow {
  method : string;
  url : string;
  headers : gmap string string;
  payloads : list pydict;
  params : option pydict;
  token : option Token;
  save_output : bool;
  output_file : string;
  conditions : list Condition;
  sleep_time : Qc;
  verify_ssl : bool;
  loops : Z;
  append_logs : bool;
  results : list string;
  total_requests : Z;
  completed_requests : Z;
  condition_results : list ConditionResult
}.

(** The arguments of [Pyllow.__init__]. *)
Record InitArgs : Type := MkInitArgs {
  arg_method : string;
  arg_url : string;
  arg_headers : gmap string string;
  arg_payloads : option (list pydict);
  arg_params : option pydict;
  arg_token : option Token;
  arg_save_output : bool;
  arg_output_file : string;
  arg_conditions : option (list Condition);
  arg_sleep_time : Qc;
  arg_verify_ssl : bool;
  arg_loops : Z;
  arg_append_logs : bool
}.

(** [xs or d] on an optional list: [None] and [[]] are falsy. *)
Definition list_or {A} (xs : option (list A)) (d : list A) : list A :=
  match xs with
  | Some (x :: rest) => x :: rest
  | _ => d
  end.

(** [self.method.upper() == "POST"] *)
Definition is_POST (m : string) : bool := String.eqb (upper m) "POST".
(** [self.method.upper() == "GET"] *)
Definition is_GET (m : string) : bool := String.eqb (upper m) "GET".

(** [Pyllow.__init__] *)
Definition Pyllow_init (a : InitArgs) : Pyllow :=
  let payloads := list_or (arg_payloads a) [∅] in
  let conditions := list_or (arg_conditions a) [] in
  {| method := arg_method a;
     url := arg_url a;
     headers := arg_headers a;
     payloads := payloads;
     params := arg_params a;
     token := arg_token a;
     save_output := arg_save_output a;
     output_file := arg_output_file a;
     conditions := conditions;
     sleep_time := arg_sleep_time a;
     verify_ssl := arg_verify_ssl a;
     loops := arg_loops a;
     append_logs := arg_append_logs a;
     results := [];
     total_requests :=
       if is_POST (arg_method a)
       then Z.of_nat (length payloads) * arg_loops a
       else arg_loops a;
     completed_requests := 0;
     condition_results :=
       map (fun c => MkConditionResult c []) conditions |}.

(** The attributes the methods assign to. *)
Definition set_headers (h : gmap string string) (p : Pyllow) : Pyllow :=
  MkPyllow (method p) (url p) h (payloads p) (params p) (token p)
    (save_output p) (output_file p) (conditions p) (sleep_time p)
    (verify_ssl p) (loops p) (append_logs p) (results p) (total_requests p)
    (completed_requests p) (condition_results p).

Definition set_token (t : option Token) (p : Pyllow) : Pyllow :=
  MkPyllow (method p) (url p) (headers p) (payloads p) (params p) t
    (save_output p) (output_file p) (conditions p) (sleep_time p)
    (verify_ssl p) (loops p) (append_logs p) (results p) (total_requests p)
    (completed_requests p) (condition_results p).

Definition set_results (r : list string) (p : Pyllow) : Pyllow :=
  MkPyllow (method p) (url p) (headers p) (payloads p) (params p) (token p)
    (save_output p) (output_file p) (conditions p) (sleep_time p)
    (verify_ssl p) (loops p) (append_logs p) r (total_requests p)
    (completed_requests p) (condition_results p).

Definition set_completed_requests (n : Z) (p : Pyllow) : Pyllow :=
  MkPyllow (method p) (url p) (headers p) (payloads p) (params p) (token p)
    (save_output p) (output_file p) (conditions p) (sleep_time p)
    (verify_ssl p) (loops p) (append_logs p) (results p) (total_requests p)
    n (condition_results p).

Definition set_condition_results (c : list ConditionResult) (p : Pyllow) : Pyllow :=
  MkPyllow (method p) (url p) (headers p) (payloads p) (params p) (token p)
    (save_output p) (output_file p) (conditions p) (sleep_time p)
    (verify_ssl p) (loops p) (append_logs p) (results p) (total_requests p)
    (completed_requests p) c.

(** [self.token.<method>(...)]: the token is the caller's object, updated in
    place; on [None] the attribute access raises. *)
Definition call_token {A} (m : M (Token * Env W) A) : M (Pyllow * Env W) A :=
  fun s =>
    match token (fst s) with
    | Some t =>
        let '(r, s') := m (t, snd s) in
        (r, (set_token (Some (fst s')) (fst s), snd s'))
    | None =>
        (Raise (MkExn AttributeError "'NoneType' object has no attribute"), s)
    end.

(** The body of the loop of [_process_response] (lines 166-178): whether
    the condition matches, and the append that follows. *)
Definition condition_matches (c : Condition) (response : Response) : bool :=
  let content := text response in
  let matched := true in
  let matched :=
    match status_codes c with
    | Some (code :: codes) =>
        if negb (existsb (Z.eqb (status_code response)) (code :: codes))
        then false else matched
    | _ => matched
    end in
  let matched :=
    match messages c with
    | Some (m :: ms) =>
        if negb (existsb (str_contains content) (m :: ms))
        then false else matched
    | _ => matched
    end in
  matched.

Definition process_condition_result (response : Response)
    (cr : ConditionResult) : ConditionResult :=
  if condition_matches (condition cr) response
  then MkConditionResult (condition cr) (cr_results cr ++ [text response])
  else cr.

(** [Pyllow._process_response(response)] *)
Definition _process_response (response : Response) : M (Pyllow * Env W) unit :=
  let content := text response in
  let* self := read_self in
  (if save_output self
   then update_self (fun p => set_results (results p ++ [content]) p)
   else ret tt) >>
  update_self (fun p =>
    set_condition_results
      (map (process_condition_result response) (condition_results p)) p).

(** The request of lines 126-133 and 138-145, built from the attributes as
    they are when it is sent. *)
Definition send_request (payload : pydict) : M (Pyllow * Env W) Response :=
  let* self := read_self in
  in_env (make_request (method self) (url self) (headers self)
            (if is_POST (method self) then Some payload else None)
            (if is_GET (method self) then params self else None)
            (verify_ssl self)).

(** [self.headers["Authorization"] = f"Bearer {self.token.access_token}"] *)
Definition set_authorization : M (Pyllow * Env W) unit :=
  let* tok := call_token read_self in
  update_self (fun p =>
    set_headers
      (<["Authorization" := "Bearer " ++ format_opt_str (access_token tok)]>
         (headers p)) p).

(** The [try] block of [_make_request] (lines 123-147). *)
Definition _make_request_body (payload : pydict) : M (Pyllow * Env W) unit :=
  let* self := read_self in
  (match token self with
   | Some tok => if truthy_str (access_token tok) then set_authorization else ret tt
   | None => ret tt
   end) >>
  let* response := send_request payload in
  let* self := read_self in
  let* response :=
    (if (status_code response =? 401)%Z && bool_decide (is_Some (token self))
     then
       call_token (refresh_access_token (headers self)) >>
       set_authorization >>
       send_request payload
     else ret response) in
  _process_response response.

(** [Pyllow._make_request(payload)] *)
Definition _make_request (payload : pydict) : M (Pyllow * Env W) unit :=
  try_except (_make_request_body payload) (fun _ => true)
    (fun e => in_env (logging_error ("Error during request: " ++ exn_msg e))).

(** [Pyllow._log_progress()]: the quotient is logged as its two terms; a
    zero divisor raises. *)
Definition _log_progress : M (Pyllow * Env W) unit :=
  let* self := read_self in
  if (total_requests self =? 0)%Z
  then raise (MkExn ZeroDivisionError "division by zero")
  else in_env (emit (LogProgress (completed_requests self) (total_requests self))).

(** [time.sleep(seconds)], recorded in the trace once it has returned. *)
Definition sleep (seconds : Qc) : M (Env W) unit :=
  (fun e =>
     let '(res, w') := time_sleep seconds (world e) in
     (res, MkEnv w' (trace e))) >>
  emit (Slept seconds).

(** Lines 96-100 and 102-106 of [run]: one dispatch and its accounting. *)
Definition dispatch (payload : pydict) : M (Pyllow * Env W) unit :=
  _make_request payload >>
  update_self (fun p => set_completed_requests (completed_requests p + 1) p) >>
  _log_progress >>
  let* self := read_self in
  match (0 ?= sleep_time self)%Qc with
  | Lt => in_env (sleep (sleep_time self))
  | _ => ret tt
  end.

(** One iteration of [for _ in range(self.loops)]. *)
Definition run_iteration : M (Pyllow * Env W) unit :=
  let* self := read_self in
  if is_POST (method self)
  then for_each (payloads self) dispatch
  else dispatch ∅.

(** The loop of [run] (lines 93-106). *)
Definition run_loop : M (Pyllow * Env W) unit :=
  let* self := read_self in
  for_range (Z.to_nat (loops self)) run_iteration.

(** [with open(path, mode) as file: for r in lines: file.write(r + "\n")] *)
Definition write_file (path mode : string) (lines : list string)
    : M (Env W) unit :=
  (fun e =>
     let '(res, w') := write_lines path mode lines (world e) in
     (res, MkEnv w' (trace e))) >>
  emit (Wrote path mode lines).

(** ["a" if self.append_logs and os.path.exists(path) else "w"] *)
Definition open_mode (append : bool) (path : string) : M (Env W) string :=
  fun e =>
    (Return (if append && os_path_exists path (world e) then "a" else "w"), e).

(** [Pyllow._save_results()] *)
Definition _save_results : M (Pyllow * Env W) unit :=
  let* self := read_self in
  let* mode := in_env (open_mode (append_logs self) (output_file self)) in
  try_except
    (in_env (write_file (output_file self) mode (results self)) >>
     in_env (logging_info ("All results saved to " ++ output_file self)))
    is_IOError
    (fun e => in_env (logging_error ("Error saving results: " ++ exn_msg e))).

(** [Pyllow._save_condition_results()] *)
Definition _save_condition_results : M (Pyllow * Env W) unit :=
  let* self := read_self in
  for_each (condition_results self) (fun cr =>
    match cond_output_file (condition cr), cr_results cr with
    | Some path, _ :: _ =>
        if String.eqb path EmptyString then ret tt else
        let* mode := in_env (open_mode (append_logs self) path) in
        try_except
          (in_env (write_file path mode (cr_results cr)) >>
           in_env (logging_info ("Results for condition saved to " ++ path)))
          is_IOError
          (fun e => in_env (logging_error
             ("Error saving condition results to " ++ path ++ ": " ++ exn_msg e)))
    | _, _ => ret tt
    end).

(** [Pyllow.run()] *)
Definition run : M (Pyllow * Env W) unit :=
  run_loop >>
  let* self := read_self in
  (if save_output self then _save_results else ret tt) >>
  _save_condition_results.

End Program.

(** * Vocabulary of the properties *)

(** ** A scripted platform

    The transport hands out the outcomes of a script one by one and refuses
    the connection once the script is used up; no file exists and every
    write succeeds; a sleep raises beyond the longest duration the clock of
    the interpreter holds, 2^63 nanoseconds. *)

Definition connection_refused : exn :=
  MkExn RequestException "connection refused".

Definition sleep_too_long : exn :=
  MkExn OverflowError "timestamp too large to convert to C _PyTime_t".

(** The longest sleep, in seconds. *)
Definition longest_sleep : Qc := Q2Qc (9223372036854775807 # 1000000000).

#[global] Instance scripted : Platform (list (result Response)) := {
  requests_request _ w :=
    match w with
    | outcome :: rest => (outcome, rest)
    | [] => (Raise connection_refused, [])
    end;
  os_path_exists _ _ := false;
  write_lines _ _ _ w := (Return tt, w);
  time_sleep seconds w :=
    match (longest_sleep ?= seconds)%Qc with
    | Lt => (Raise sleep_too_long, w)
    | _ => (Return tt, w)
    end
}.

Definition script (outcomes : list (result Response))
    : Env (list (result Response)) :=
  MkEnv outcomes [].

(** ** Reading a trace *)

(** The requests a trace records, oldest first. *)
Definition sent_of (evs : list event) : list Request :=
  omap (fun ev => match ev with Sent r => Some r | _ => None end) evs.

(** The progress lines a trace records, oldest first. *)
Definition progress_of (evs : list event) : list (Z * Z) :=
  omap (fun ev => match ev with LogProgress c t => Some (c, t) | _ => None end) evs.

(** ** What the specification calls things *)

(** Following a key path through nested mappings: every step is a lookup
    of a present key in a mapping. *)
Inductive follows : pyval -> list string -> pyval -> Prop :=
| follows_here v : follows v [] v
| follows_step d key rest x v :
    d !! key = Some x -> follows x rest v ->
    follows (PDict d) (key :: rest) v.

(** [m] occurs as a substring of [body]. *)
Definition occurs_in (m body : string) : Prop :=
  exists pre post, body = pre ++ m ++ post.

(** A clause that is absent or empty. *)
Definition no_constraint {A} (clause : option (list A)) : Prop :=
  clause = None \/ clause = Some [].

(** The matching rule of the specification. *)
Definition spec_matches (c : Condition) (r : Response) : Prop :=
  (no_constraint (status_codes c) \/
   exists codes, status_codes c = Some codes /\ status_code r ∈ codes) /\
  (no_constraint (messages c) \/
   exists ms, messages c = Some ms /\
     exists m, m ∈ ms /\ occurs_in m (text r)).

(** The value at a path of a refresh response, when there is one. *)
Definition extracted (r : Response) (path : list string) : option string :=
  match json r with
  | Some data => _extract_value data path
  | None => None
  end.

(** The request [refresh_access_token] sends. *)
Definition refresh_request (headers : gmap string string) (t : Token) : Request :=
  MkRequest "POST" (token_endpoint t) headers (Some (refresh_payload t)) None true.

(** ** Closed forms of the steps of a dispatch *)

(** The token a successful refresh leaves, from the parsed document. *)
Definition refreshed (data : pyval) (t : Token) : Token :=
  let t' := set_access_token (_extract_value data (access_token_path t)) t in
  match _extract_value data (refresh_token_path t) with
  | Some new => if truthy_str (Some new) then set_refresh_token new t' else t'
  | None => t'
  end.

(** The object after lines 123-124: the Authorization header is set from a
    non-empty access token. *)
Definition authorized (p : Pyllow) : Pyllow :=
  match token p with
  | Some tok =>
      if truthy_str (access_token tok)
      then set_headers
             (<["Authorization" := "Bearer " ++ format_opt_str (access_token tok)]>
                (headers p)) p
      else p
  | None => p
  end.

(** The request [make_request] is called with, from the attributes. *)
Definition build_request `{!Str} (payload : pydict) (p : Pyllow) : Request :=
  MkRequest (method p) (url p) (headers p)
    (if is_POST (method p) then Some payload else None)
    (if is_GET (method p) then params p else None)
    (verify_ssl p).

(** What [make_request] logs for an exception. *)
Definition request_failed_log (ex : exn) : list event :=
  if is_RequestException ex
  then [LogError ("Request failed: " ++ exn_msg ex)] else [].

(** The object when the retry is sent: the refreshed token, and its access
    token in the Authorization header. *)
Definition reauthorized (tok' : Token) (p : Pyllow) : Pyllow :=
  set_headers
    (<["Authorization" := "Bearer " ++ format_opt_str (access_token tok')]>
       (headers p))
    (set_token (Some tok') p).

(** ** The configuration, the schedule and its trace *)

(** The configuration of a run. *)
Definition static (p : Pyllow) :=
  (method p, url p, payloads p, params p, verify_ssl p, loops p,
   total_requests p, sleep_time p).

(** The configuration and the counter. *)
Definition counted (p : Pyllow) := (static p, completed_requests p).

(** The payloads [run] dispatches, in order. *)
Definition schedule `{!Str} (p : Pyllow) : list pydict :=
  if is_POST (method p)
  then concat (replicate (Z.to_nat (loops p)) (payloads p))
  else replicate (Z.to_nat (loops p)) ∅.

(** The pause [run] takes after a dispatch returns: none is taken when
    [sleep_time] is not positive, and [time.sleep] returns on it otherwise.
    The call sits outside every [try] of the program. *)
Definition pause_returns {W : Type} `{!Platform W} (t : Qc) : Prop :=
  (0 ?= t)%Qc = Lt -> forall w : W, fst (time_sleep t w) = Return tt.

(** The trace of dispatching the payloads one after the other, the counter
    starting at [c]: each dispatch starts with the request that carries its
    payload and logs one progress line, the counter one higher. *)
Inductive dispatch_trace (post : bool) (total : Z)
    : Z -> list pydict -> list event -> Prop :=
| dispatched_none c : dispatch_trace post total c [] []
| dispatched_one c payload rest r evs evs' :
    req_data r = (if post then Some payload else None) ->
    progress_of evs = [(c + 1, total)] ->
    dispatch_trace post total (c + 1) rest evs' ->
    dispatch_trace post total c (payload :: rest) (Sent r :: evs ++ evs').

(** ** Relations every step of a computation respects *)

(** [stable R m]: whatever [m] does, and whether it returns or raises, the
    state it ends in is related by [R] to the state it started in. *)
Definition stable {St A} (R : relation St) (m : M St A) : Prop :=
  forall s, R s (snd (m s)).

(** The trace only grows, and by no progress line. *)
Definition quiet (t t' : list event) : Prop :=
  exists evs, t' = (t ++ evs)%list /\ progress_of evs = [].

(** [keeps f]: the attribute (or tuple of attributes) [f] of the object is
    the same before and after. *)
Definition keeps {X E B} (f : X -> B) : relation (X * E) :=
  fun s s' => f (fst s') = f (fst s).

(** [silent]: the trace of the state's environment grows quietly. *)
Definition silent {X W} : relation (X * Env W) :=
  fun s s' => quiet (trace (snd s)) (trace (snd s')).

Definition env_quiet {W} : relation (Env W) :=
  fun e e' => quiet (trace e) (trace e').

(** ** Example data *)

(** [str.upper] where the examples need it: on strings of ASCII characters,
    on which it raises the letters a to z and keeps every other character. *)
Definition upper_ascii (c : Ascii.ascii) : Ascii.ascii :=
  let n := Ascii.nat_of_ascii c in
  if (Nat.leb 97 n && Nat.leb n 122)%bool then Ascii.ascii_of_nat (n - 32) else c.

Fixpoint upper_ascii_string (s : string) : string :=
  match s with
  | EmptyString => EmptyString
  | String c s' => String (upper_ascii c) (upper_ascii_string s')
  end.

#[global] Instance ascii_str : Str := {| upper := upper_ascii_string |}.

(** The JSON document of the specification's example. *)
Definition example_document : pyval :=
  PDict {[ "a" := PDict {[ "b" := PStr "tok123" ]} ]}.

(** The condition of the specification's scenario. *)
Definition ok_condition : Condition :=
  MkCondition (Some [200]) (Some ["ok"]) (Some "ok.txt").

(** A token that already holds an access token. *)
Definition held_token : Token :=
  set_access_token (Some "old-access")
    (Token_init "https://auth.example/token" "s3cret" "old-refresh" "client-1"
       None None).

(** A 200 response whose document has no entry at the access-token path. *)
Definition rotated_only : Response :=
  MkResponse 200 "{...}" (Some (PDict {[ "refresh_token" := PStr "new-refresh" ]})).

(** An orchestrator's arguments, the ones the examples vary apart. *)
Definition example_args (method : string) (payloads : option (list pydict))
    (token : option Token) (loops : Z) : InitArgs :=
  {| arg_method := method;
     arg_url := "https://api.example/items";
     arg_headers := {[ "Accept" := "application/json" ]};
     arg_payloads := payloads;
     arg_params := None;
     arg_token := token;
     arg_save_output := true;
     arg_output_file := "output.txt";
     arg_conditions := None;
     arg_sleep_time := 0%Qc;
     arg_verify_ssl := true;
     arg_loops := loops;
     arg_append_logs := false |}.

Definition payload_x (n : Z) : pydict := {[ "x" := PInt n ]}.

(** The arguments [a] with another [sleep_time]. *)
Definition pausing (t : Qc) (a : InitArgs) : InitArgs :=
  {| arg_method := arg_method a;
     arg_url := arg_url a;
     arg_headers := arg_headers a;
     arg_payloads := arg_payloads a;
     arg_params := arg_params a;
     arg_token := arg_token a;
     arg_save_output := arg_save_output a;
     arg_output_file := arg_output_file a;
     arg_conditions := arg_conditions a;
     arg_sleep_time := t;
     arg_verify_ssl := arg_verify_ssl a;
     arg_loops := arg_loops a;
     arg_append_logs := arg_append_logs a |}.

(** A pause the clock holds, and one it does not. *)
Definition half_a_second : Qc := Q2Qc (1 # 2).
Definition ten_billion_seconds : Qc := Q2Qc (10000000000 # 1).

Definition denied : Response := MkResponse 401 "denied" None.
Definition denied_again : Response := MkResponse 401 "denied again" None.

Definition fresh_tokens : Response :=
  MkResponse 200 "{...}"
    (Some (PDict {[ "access_token" := PStr "new-access" ]})).

Definition guarded : Pyllow :=
  Pyllow_init (example_args "GET" None (Some held_token) 1).

(** ** More vocabulary: the rest of the three files *)

(** A relation on the object alone, whatever the environment does. *)
Definition on_self {X E} (R : relation X) : relation (X * E) :=
  fun s s' => R (fst s) (fst s').

(** The trace only grows, and only by events that satisfy [P]. *)
Definition appends (P : event -> Prop) : relation (list event) :=
  fun t t' => exists evs, t' = (t ++ evs)%list /\ Forall P evs.

Definition env_appends {W} (P : event -> Prop) : relation (Env W) :=
  fun e e' => appends P (trace e) (trace e').

Definition on_trace {X W} (P : event -> Prop) : relation (X * Env W) :=
  fun s s' => appends P (trace (snd s)) (trace (snd s')).

(** The events of the request loop: no file is written there. *)
Definition not_wrote (ev : event) : Prop :=
  match ev with Wrote _ _ _ => False | _ => True end.

(** The events of saving: no request is sent there and no progress line is
    logged. *)
Definition not_sent (ev : event) : Prop :=
  match ev with Sent _ | LogProgress _ _ => False | _ => True end.

(** [kept f]: the value of [f] is the same before and after. *)
Definition kept {X B} (f : X -> B) : relation X :=
  fun x x' => f x' = f x.

(** What of a token no refresh assigns. *)
Definition credentials (t : Token) :=
  (token_endpoint t, client_id t, client_secret t,
   access_token_path t, refresh_token_path t).

(** The token of an orchestrator stays the same object with the same
    credentials. *)
Definition same_credentials (p p' : Pyllow) : Prop :=
  option_map credentials (token p') = option_map credentials (token p).

(** The headers differ at most at Authorization. *)
Definition same_other_headers (p p' : Pyllow) : Prop :=
  forall k, k <> "Authorization" -> headers p' !! k = headers p !! k.

(** The collected bodies only grow, each list at its end, and every
    condition result keeps its condition. *)
Definition grown (p p' : Pyllow) : Prop :=
  results p `prefix_of` results p' /\
  Forall2 (fun cr cr' =>
             condition cr' = condition cr /\
             cr_results cr `prefix_of` cr_results cr')
    (condition_results p) (condition_results p').

(** With [save_output] off, it stays off and [results] is not touched. *)
Definition unsaved (p p' : Pyllow) : Prop :=
  save_output p = false ->
  save_output p' = false /\ results p' = results p.

(** The refresh token a 200 response with document [data] leaves. *)
Definition rotated (data : pyval) (t : Token) : string :=
  match _extract_value data (refresh_token_path t) with
  | Some new => if String.eqb new EmptyString then refresh_token t else new
  | None => refresh_token t
  end.

(** The keys of the refresh grant. *)
Definition grant_keys : gset string :=
  {[ "grant_type"; "refresh_token"; "client_id"; "client_secret" ]}.

(** The document that holds [s] under the keys of [path], nested. *)
Definition nest (path : list string) (s : string) : pyval :=
  foldr (fun key v => PDict {[ key := v ]}) (PStr s) path.

(** Whether [_save_condition_results] opens a file for a condition result
    (line 208: [if output_file and results]). *)
Definition writes_file (cr : ConditionResult) : bool :=
  match cond_output_file (condition cr), cr_results cr with
  | Some path, _ :: _ => negb (String.eqb path EmptyString)
  | _, _ => false
  end.

(** The events of [_save_condition_results] over a list of condition
    results: nothing for one without a file or without matches, a write and
    its log line for one that is saved, one error line for one whose write
    fails. *)
Inductive saved_trace : list ConditionResult -> list event -> Prop :=
| saved_none : saved_trace [] []
| saved_skipped cr rest evs :
    writes_file cr = false ->
    saved_trace rest evs ->
    saved_trace (cr :: rest) evs
| saved_written cr rest path mode evs :
    writes_file cr = true ->
    cond_output_file (condition cr) = Some path ->
    saved_trace rest evs ->
    saved_trace (cr :: rest)
      (Wrote path mode (cr_results cr)
         :: LogInfo ("Results for condition saved to " ++ path) :: evs)
| saved_failed cr rest path ex evs :
    writes_file cr = true ->
    cond_output_file (condition cr) = Some path ->
    saved_trace rest evs ->
    saved_trace (cr :: rest)
      (LogError ("Error saving condition results to " ++ path ++ ": "
                   ++ exn_msg ex) :: evs).

(** The body of the loop of [_save_condition_results] (lines 205-218), for
    one condition result. *)
Definition save_condition {W} `{!Platform W} (append : bool)
    (cr : ConditionResult) : M (Pyllow * Env W) unit :=
  match cond_output_file (condition cr), cr_results cr with
  | Some path, _ :: _ =>
      if String.eqb path EmptyString then ret tt else
      let* mode := in_env (open_mode append path) in
      try_except
        (in_env (write_file path mode (cr_results cr)) >>
         in_env (logging_info ("Results for condition saved to " ++ path)))
        is_IOError
        (fun e => in_env (logging_error
           ("Error saving condition results to " ++ path ++ ": " ++ exn_msg e)))
  | _, _ => ret tt
  end.

(** The events of saving the condition results [crs]: every write is the
    file of one of them, with its bodies; no request is sent and no progress
    line is logged. *)
Definition condition_write (crs : list ConditionResult) (ev : event) : Prop :=
  match ev with
  | Wrote path _ lines =>
      exists cr, cr ∈ crs /\ cond_output_file (condition cr) = Some path /\
                 cr_results cr = lines /\ lines <> []
  | Sent _ | LogProgress _ _ => False
  | _ => True
  end.

(** A platform whose writes fail only with [IOError]s. *)
Definition io_errors_only {W} `{!Platform W} : Prop :=
  forall path mode lines w ex w',
    write_lines path mode lines w = (Raise ex, w') -> is_IOError ex = true.

(** A disk on which every write fails, with the exception it is given; the
    transport refuses every connection. *)
Definition broken_disk (ex : exn) : Platform unit := {|
  requests_request _ w := (Raise connection_refused, w);
  os_path_exists _ _ := true;
  write_lines _ _ _ w := (Raise ex, w);
  time_sleep _ w := (Return tt, w)
|}.

(** ** More example data *)

Definition fine : Response := MkResponse 200 "fine" None.

(** An orchestrator without a token. *)
Definition plain : Pyllow := Pyllow_init (example_args "GET" None None 1).

(** An orchestrator whose token was just built. *)
Definition newly_built : Token :=
  Token_init "https://auth.example/token" "s3cret" "r-1" "client-1" None None.

Definition unauthenticated : Pyllow :=
  Pyllow_init (example_args "GET" None (Some newly_built) 1).

(** A condition that takes every body, and one that takes none. *)
Definition any_body : Condition :=
  MkCondition None (Some ["error"; EmptyString]) (Some "all.txt").

Definition server_errors : Condition :=
  MkCondition (Some [500; 503]) None (Some "errors.txt").

(** Arguments with two conditions and the main output switched off. *)
Definition watch_args (loops : Z) : InitArgs :=
  {| arg_method := "GET";
     arg_url := "https://api.example/items";
     arg_headers := ∅;
     arg_payloads := None;
     arg_params := None;
     arg_token := None;
     arg_save_output := false;
     arg_output_file := "output.txt";
     arg_conditions := Some [any_body; server_errors];
     arg_sleep_time := 0%Qc;
     arg_verify_ssl := true;
     arg_loops := loops;
     arg_append_logs := true |}.


Definition disk_full : exn := MkExn IOError "No space left on device".
Definition bad_encoding : exn := MkExn Exception "surrogates not allowed".

(** * Proofs *)

(** ** Nested extraction *)

Lemma extract_none_of_PNone (path : list string) : _extract_value PNone path = None.
Proof. by destruct path. Qed.

Lemma extract_follows (data : pyval) (path : list string) (s : string) :
  _extract_value data path = Some s -> follows data path (PStr s).
Proof.
  revert data. induction path as [|key rest IH]; intros data Hx.
  - destruct data; simpl in Hx; try discriminate.
    injection Hx as ->. constructor.
  - destruct data as [| | | | |d]; simpl in Hx; try discriminate.
    unfold dict_get in Hx. destruct (d !! key) as [x|] eqn:Hk; simpl in Hx.
    + econstructor; [exact Hk | by apply IH].
    + by rewrite extract_none_of_PNone in Hx.
Qed.

Lemma follows_extract (data : pyval) (path : list string) (v : pyval) :
  follows data path v -> forall s, v = PStr s -> _extract_value data path = Some s.
Proof.
  induction 1 as [v|d key rest x v Hk _ IH]; intros s ->.
  - reflexivity.
  - simpl. unfold dict_get. rewrite Hk. simpl. by apply IH.
Qed.

(** C8: extraction follows the path key by key and yields the final value
    exactly when every intermediate value is a mapping that contains the key
    and the final value is a string; in every other case it yields no value.
    On the document a.b = "tok123" it yields "tok123" at [a, b] and no value
    at [a, c], and no value when an intermediate value is not a mapping. *)
Theorem extract_value_spec :
  (forall data path s,
     _extract_value data path = Some s <-> follows data path (PStr s)) /\
  (forall data path,
     _extract_value data path = None <-> ~ exists s, follows data path (PStr s)) /\
  _extract_value example_document ["a"; "b"] = Some "tok123" /\
  _extract_value example_document ["a"; "c"] = None /\
  _extract_value example_document ["a"; "b"; "c"] = None /\
  _extract_value (PDict {[ "a" := PInt 7 ]}) ["a"; "b"] = None.
Proof.
  assert (Hiff : forall data path s,
    _extract_value data path = Some s <-> follows data path (PStr s)).
  { intros data path s. split.
    - apply extract_follows.
    - intros Hf. by eapply follows_extract. }
  split; [exact Hiff|]. split.
  - intros data path. split.
    + intros Hn [s Hs]. apply Hiff in Hs. congruence.
    + intros Hn. destruct (_extract_value data path) as [s|] eqn:Hx; [|done].
      exfalso. apply Hn. exists s. by apply Hiff.
  - repeat split; vm_compute; reflexivity.
Qed.

(** ** The token manager *)

Section TokenProperties.
Context {W : Type} `{!Platform W} {Str0 : Str}.

Lemma refresh_transport_raises headers (t : Token) (e : Env W) ex w' :
  requests_request (refresh_request headers t) (world e) = (Raise ex, w') ->
  refresh_access_token headers (t, e) =
    (Raise ex,
     (t, MkEnv w' (trace e ++ [Sent (refresh_request headers t)]
           ++ (if is_RequestException ex
               then [LogError ("Request failed: " ++ exn_msg ex)] else [])
           ++ [LogError ("Error refreshing token: " ++ exn_msg ex)]))).
Proof.
  intros Hw. unfold refresh_request in Hw.
  unfold refresh_access_token, bind, read_self, try_except, in_env,
    make_request, try_except, http_call, bind, emit, modify, logging_error,
    emit, modify, raise; simpl.
  rewrite Hw. simpl. destruct (is_RequestException ex); simpl;
    by rewrite <- ?app_assoc.
Qed.

Lemma refresh_status_not_200 headers (t : Token) (e : Env W) resp w' :
  requests_request (refresh_request headers t) (world e) = (Return resp, w') ->
  status_code resp <> 200 ->
  refresh_access_token headers (t, e) =
    (Raise (MkExn Exception "Token refresh failed"),
     (t, MkEnv w' (trace e ++
        [Sent (refresh_request headers t);
         LogError ("Token refresh failed with status code "
                     ++ pretty (status_code resp));
         LogError "Error refreshing token: Token refresh failed"]))).
Proof.
  intros Hw Hs. unfold refresh_request in Hw.
  unfold refresh_access_token, bind, read_self, try_except, in_env,
    make_request, try_except, http_call, bind, emit, modify, logging_error,
    emit, modify, raise; simpl.
  rewrite Hw. simpl.
  destruct (Z.eqb_spec (status_code resp) 200) as [|_]; [done|].
  simpl. by rewrite <- !app_assoc.
Qed.

Lemma refresh_200_unparsed headers (t : Token) (e : Env W) resp w' :
  requests_request (refresh_request headers t) (world e) = (Return resp, w') ->
  status_code resp = 200 -> json resp = None ->
  refresh_access_token headers (t, e) =
    (Raise (MkExn JSONDecodeError "Expecting value"),
     (t, MkEnv w' (trace e ++
        [Sent (refresh_request headers t);
         LogError "Error refreshing token: Expecting value"]))).
Proof.
  intros Hw Hs Hj. unfold refresh_request in Hw.
  unfold refresh_access_token, bind, read_self, try_except, in_env,
    make_request, try_except, http_call, bind, emit, modify, logging_error,
    emit, modify, raise, response_json; simpl.
  rewrite Hw. simpl. rewrite Hs, Hj. simpl. by rewrite <- !app_assoc.
Qed.

Lemma refresh_200_parsed headers (t : Token) (e : Env W) resp w' data :
  requests_request (refresh_request headers t) (world e) = (Return resp, w') ->
  status_code resp = 200 -> json resp = Some data ->
  refresh_access_token headers (t, e) =
    (Return (_extract_value data (access_token_path t)),
     (refreshed data t,
      MkEnv w' (trace e ++ [Sent (refresh_request headers t)]))).
Proof.
  intros Hw Hs Hj. unfold refresh_request in Hw.
  unfold refresh_access_token, bind, read_self, try_except, in_env,
    make_request, try_except, http_call, bind, emit, modify, logging_error,
    emit, modify, raise, response_json, update_self, modify, ret, refreshed;
    simpl.
  rewrite Hw. simpl. rewrite Hs, Hj. simpl.
  destruct (_extract_value data (refresh_token_path t)) as [new|]; simpl;
    [destruct (String.eqb new EmptyString); simpl|]; reflexivity.
Qed.

(** C2: when the transport request of a refresh fails, or its response has
    a status other than 200, the call fails with an error and the token is
    left as it was: access_token and refresh_token keep their values. *)
Theorem refresh_failure_keeps_token headers (t : Token) (e : Env W) :
  (exists ex,
     fst (requests_request (refresh_request headers t) (world e)) = Raise ex) \/
  (exists resp,
     fst (requests_request (refresh_request headers t) (world e)) = Return resp /\
     status_code resp <> 200) ->
  let out := refresh_access_token headers (t, e) in
  (exists ex, fst out = Raise ex) /\
  fst (snd out) = t /\
  access_token (fst (snd out)) = access_token t /\
  refresh_token (fst (snd out)) = refresh_token t.
Proof.
  intros Hfail out. subst out.
  destruct (requests_request (refresh_request headers t) (world e))
    as [outcome w'] eqn:Hw.
  destruct Hfail as [[ex Hex]|[resp [Hresp Hs]]]; simpl in *; subst outcome.
  - rewrite (refresh_transport_raises _ _ _ _ _ Hw). simpl. eauto.
  - rewrite (refresh_status_not_200 _ _ _ _ _ Hw Hs). simpl. eauto.
Qed.

(** C3, as amended: when the response of a refresh has status 200 and its
    body parses as JSON, the stored access_token is replaced by the value
    extracted at access_token_path, whatever that value is, empty and absent
    included, and the call returns it; when the body does not parse, the
    call raises and the access_token is the one held before. *)
Theorem refresh_200_replaces_access_token headers (t : Token) (e : Env W) resp :
  fst (requests_request (refresh_request headers t) (world e)) = Return resp ->
  status_code resp = 200 ->
  let out := refresh_access_token headers (t, e) in
  match json resp with
  | Some data =>
      fst out = Return (_extract_value data (access_token_path t)) /\
      access_token (fst (snd out)) = _extract_value data (access_token_path t)
  | None =>
      (exists ex, fst out = Raise ex) /\
      access_token (fst (snd out)) = access_token t
  end.
Proof.
  intros Hresp Hs out. subst out.
  destruct (requests_request (refresh_request headers t) (world e))
    as [outcome w'] eqn:Hw.
  simpl in Hresp. subst outcome.
  destruct (json resp) as [data|] eqn:Hj.
  - rewrite (refresh_200_parsed _ _ _ _ _ _ Hw Hs Hj). simpl. split; [done|].
    unfold refreshed.
    destruct (_extract_value data (refresh_token_path t)) as [new|]; [|done].
    by destruct (truthy_str (Some new)).
  - rewrite (refresh_200_unparsed _ _ _ _ _ Hw Hs Hj). simpl. eauto.
Qed.

(** C4: when the response of a refresh has status 200, the stored
    refresh_token is replaced by the value extracted at refresh_token_path
    when that value is a non-empty string, and is unchanged otherwise. *)
Theorem refresh_200_refresh_token headers (t : Token) (e : Env W) resp :
  fst (requests_request (refresh_request headers t) (world e)) = Return resp ->
  status_code resp = 200 ->
  refresh_token (fst (snd (refresh_access_token headers (t, e)))) =
    match extracted resp (refresh_token_path t) with
    | Some new => if String.eqb new EmptyString then refresh_token t else new
    | None => refresh_token t
    end.
Proof.
  intros Hresp Hs.
  destruct (requests_request (refresh_request headers t) (world e))
    as [outcome w'] eqn:Hw.
  simpl in Hresp. subst outcome. unfold extracted.
  destruct (json resp) as [data|] eqn:Hj.
  - rewrite (refresh_200_parsed _ _ _ _ _ _ Hw Hs Hj). simpl. unfold refreshed.
    destruct (_extract_value data (refresh_token_path t)) as [new|]; [|done].
    simpl. by destruct (String.eqb new EmptyString).
  - by rewrite (refresh_200_unparsed _ _ _ _ _ Hw Hs Hj).
Qed.

End TokenProperties.

Lemma refresh_failure_keeps_token_witness :
  let out := refresh_access_token ∅
               (held_token, script [Return (MkResponse 503 "busy" None)]) in
  (exists ex, fst out = Raise ex) /\
  fst (snd out) = held_token /\
  access_token (fst (snd out)) = Some "old-access" /\
  refresh_token (fst (snd out)) = "old-refresh".
Proof.
  apply (refresh_failure_keeps_token ∅ held_token
           (script [Return (MkResponse 503 "busy" None)])).
  right. exists (MkResponse 503 "busy" None). split; [reflexivity|].
  simpl. lia.
Defined.

Lemma refresh_200_replaces_access_token_witness :
  let out := refresh_access_token ∅ (held_token, script [Return rotated_only]) in
  fst out = Return None /\ access_token (fst (snd out)) = None.
Proof.
  pose proof (refresh_200_replaces_access_token ∅ held_token
           (script [Return rotated_only]) rotated_only
           eq_refl eq_refl) as H.
  vm_compute in H. vm_compute. exact H.
Defined.

Lemma refresh_200_refresh_token_witness :
  refresh_token
    (fst (snd (refresh_access_token ∅
                 (held_token, script [Return rotated_only])))) = "new-refresh".
Proof.
  pose proof (refresh_200_refresh_token ∅ held_token
           (script [Return rotated_only]) rotated_only eq_refl eq_refl) as H.
  vm_compute in H. vm_compute. exact H.
Defined.

(** C3, as stated, fails: a 200 response whose body is not JSON makes the
    call raise, and the access token it held is not replaced by the (absent)
    extracted value. *)
Lemma unparsed_body_keeps_access_token :
  let resp := MkResponse 200 "<html>oops</html>" None in
  let out := refresh_access_token ∅ (held_token, script [Return resp]) in
  status_code resp = 200 /\
  extracted resp (access_token_path held_token) = None /\
  fst out = Raise (MkExn JSONDecodeError "Expecting value") /\
  access_token (fst (snd out)) = Some "old-access" /\
  access_token (fst (snd out)) <> extracted resp (access_token_path held_token).
Proof. vm_compute. repeat split; congruence. Qed.

(** ** Condition matching *)

Lemma append_empty (s : string) : EmptyString ++ s = s.
Proof. reflexivity. Qed.

Lemma append_String (a : Ascii.ascii) (s t : string) :
  String a s ++ t = String a (s ++ t).
Proof. reflexivity. Qed.

Lemma prefix_true_iff (m c : string) :
  String.prefix m c = true <-> exists post, c = m ++ post.
Proof.
  revert c. induction m as [|a m IH]; intros c.
  - split; [intros _; exists c; reflexivity | intros _; by destruct c].
  - destruct c as [|b c]; simpl.
    + split; [done | intros [post Hp]; rewrite append_String in Hp; discriminate].
    + destruct (Ascii.ascii_dec a b) as [->|Hne].
      * rewrite IH. split; intros [post Hp]; exists post;
          rewrite append_String in *; congruence.
      * split; [done | intros [post Hp]; rewrite append_String in Hp; congruence].
Qed.

Lemma str_contains_occurs (content m : string) :
  str_contains content m = true <-> occurs_in m content.
Proof.
  induction content as [|b content IH].
  - change (str_contains EmptyString m) with (String.prefix m EmptyString || false).
    rewrite orb_false_r, prefix_true_iff. unfold occurs_in. split.
    + intros [post Hp]. exists EmptyString, post. by rewrite append_empty.
    + intros [pre [post Hp]]. destruct pre as [|a pre].
      * exists post. by rewrite append_empty in Hp.
      * rewrite append_String in Hp. discriminate.
  - change (str_contains (String b content) m)
      with (String.prefix m (String b content) || str_contains content m).
    rewrite orb_true_iff, prefix_true_iff, IH. unfold occurs_in. split.
    + intros [[post Hp]|[pre [post Hp]]].
      * exists EmptyString, post. by rewrite append_empty.
      * exists (String b pre), post. rewrite append_String. by rewrite Hp.
    + intros [pre [post Hp]]. destruct pre as [|a pre].
      * left. exists post. by rewrite append_empty in Hp.
      * right. exists pre, post. rewrite append_String in Hp. congruence.
Qed.

Lemma existsb_elem_of {A} (f : A -> bool) (P : A -> Prop) (l : list A) :
  (forall x, f x = true <-> P x) ->
  existsb f l = true <-> exists x, x ∈ l /\ P x.
Proof.
  intros Hf. rewrite existsb_exists. split; intros [x [Hin Hx]]; exists x.
  - by rewrite list_elem_of_In, <- Hf.
  - by rewrite <- list_elem_of_In, Hf.
Qed.

Lemma status_clause_iff (c : Condition) (r : Response) :
  match status_codes c with
  | Some (code :: codes) =>
      existsb (Z.eqb (status_code r)) (code :: codes) = true
  | _ => True
  end <->
  (no_constraint (status_codes c) \/
   exists codes, status_codes c = Some codes /\ status_code r ∈ codes).
Proof.
  unfold no_constraint. destruct (status_codes c) as [[|code codes]|].
  - split; [intros _; left; by right | done].
  - rewrite (existsb_elem_of _ (fun x => status_code r = x))
      by (intros x; apply Z.eqb_eq).
    split.
    + intros [x [Hin ->]]. right. eauto.
    + intros [[?|?]|[l [[= <-] Hin]]]; try discriminate. eauto.
  - split; [intros _; left; by left | done].
Qed.

Lemma messages_clause_iff (c : Condition) (r : Response) :
  match messages c with
  | Some (m :: ms) => existsb (str_contains (text r)) (m :: ms) = true
  | _ => True
  end <->
  (no_constraint (messages c) \/
   exists ms, messages c = Some ms /\
     exists m, m ∈ ms /\ occurs_in m (text r)).
Proof.
  unfold no_constraint. destruct (messages c) as [[|m ms]|].
  - split; [intros _; left; by right | done].
  - rewrite (existsb_elem_of _ (fun x => occurs_in x (text r)))
      by (intros x; apply str_contains_occurs).
    split.
    + intros Hx. right. eauto.
    + intros [[?|?]|[l [[= <-] Hin]]]; try discriminate. eauto.
  - split; [intros _; left; by left | done].
Qed.

Lemma condition_matches_iff (c : Condition) (r : Response) :
  condition_matches c r = true <-> spec_matches c r.
Proof.
  unfold spec_matches.
  rewrite <- status_clause_iff, <- messages_clause_iff.
  unfold condition_matches.
  destruct (status_codes c) as [[|code codes]|];
    destruct (messages c) as [[|m ms]|];
    repeat match goal with
           | |- context [existsb ?f ?l] => destruct (existsb f l)
           end; simpl; intuition congruence.
Qed.

Section MatcherProperties.
Context {W : Type} `{!Platform W} {Str0 : Str}.

(** C7: a condition matches a response exactly when (its status_codes are
    absent or empty, or hold the response's status code) and (its messages
    are absent or empty, or one of them occurs in the body); processing a
    response appends the body to the results of each condition that matches
    and leaves the others alone.  {status_codes: [200], messages: ["ok"]}
    matches status 200 with a body holding "ok", not status 200 with body
    "fail". *)
Theorem process_response_matches (r : Response) (s : Pyllow * Env W) :
  (forall c, condition_matches c r = true <-> spec_matches c r) /\
  fst (_process_response r s) = Return tt /\
  (forall i cr,
     condition_results (fst s) !! i = Some cr ->
     condition_results (fst (snd (_process_response r s))) !! i =
       Some (MkConditionResult (condition cr)
               (if condition_matches (condition cr) r
                then (cr_results cr ++ [text r])%list
                else cr_results cr))) /\
  length (condition_results (fst (snd (_process_response r s)))) =
    length (condition_results (fst s)) /\
  condition_matches ok_condition (MkResponse 200 "all ok" None) = true /\
  condition_matches ok_condition (MkResponse 200 "fail" None) = false /\
  condition_matches ok_condition (MkResponse 404 "ok" None) = false.
Proof.
  split; [intros c; apply condition_matches_iff|].
  destruct s as [p e].
  assert (Hcr : condition_results (fst (snd (_process_response r (p, e)))) =
                map (process_condition_result r) (condition_results p)).
  { unfold _process_response, bind, read_self, update_self, modify, ret.
    simpl. by destruct (save_output p). }
  split.
  { unfold _process_response, bind, read_self, update_self, modify, ret.
    simpl. by destruct (save_output p). }
  split.
  { intros i cr Hi. rewrite Hcr, list_lookup_fmap. simpl in Hi. rewrite Hi.
    simpl. unfold process_condition_result.
    destruct (condition_matches (condition cr) r); [done|by destruct cr]. }
  split; [by rewrite Hcr, length_map|].
  repeat split; reflexivity.
Qed.

End MatcherProperties.

Section Stable.
Context {St : Type} (R : relation St) `{!PreOrder R}.

Lemma stable_ret {A} (a : A) : stable R (ret a).
Proof. intros s. simpl. reflexivity. Qed.

Lemma stable_raise {A} (e : exn) : stable R (raise (A:=A) e).
Proof. intros s. simpl. reflexivity. Qed.

Lemma stable_bind {A B} (m : M St A) (k : A -> M St B) :
  stable R m -> (forall a, stable R (k a)) -> stable R (bind m k).
Proof.
  intros Hm Hk s. unfold bind. specialize (Hm s).
  destruct (m s) as [[a|e] s']; simpl in *; [|done].
  etransitivity; [exact Hm | apply Hk].
Qed.

Lemma stable_try_except {A} (m : M St A) catches (h : exn -> M St A) :
  stable R m -> (forall e, stable R (h e)) -> stable R (try_except m catches h).
Proof.
  intros Hm Hh s. unfold try_except. specialize (Hm s).
  destruct (m s) as [[a|e] s']; simpl in *; [done|].
  destruct (catches e); [|done].
  etransitivity; [exact Hm | apply Hh].
Qed.

Lemma stable_for_each {A} (xs : list A) (body : A -> M St unit) :
  (forall x, stable R (body x)) -> stable R (for_each xs body).
Proof.
  intros Hb. induction xs as [|x xs IH]; simpl.
  - apply stable_ret.
  - apply stable_bind; [apply Hb | intros _; exact IH].
Qed.

Lemma stable_for_range (n : nat) (body : M St unit) :
  stable R body -> stable R (for_range n body).
Proof.
  intros Hb. induction n as [|n IH]; simpl.
  - apply stable_ret.
  - apply stable_bind; [exact Hb | intros _; exact IH].
Qed.

End Stable.

#[global] Instance quiet_preorder : PreOrder quiet.
Proof.
  split.
  - intros t. exists []. by rewrite app_nil_r.
  - intros t1 t2 t3 [evs1 [-> H1]] [evs2 [-> H2]].
    exists (evs1 ++ evs2)%list. rewrite app_assoc. split; [done|].
    unfold progress_of in *. by rewrite omap_app, H1, H2.
Qed.

#[global] Instance keeps_preorder {X E B} (f : X -> B) : PreOrder (keeps (E:=E) f).
Proof.
  split.
  - by intros s.
  - intros s1 s2 s3 H12 H23. unfold keeps in *. congruence.
Qed.

#[global] Instance silent_preorder {X W} : PreOrder (silent (X:=X) (W:=W)).
Proof.
  split.
  - intros s. unfold silent. reflexivity.
  - intros s1 s2 s3 H12 H23. unfold silent in *. by etransitivity.
Qed.

#[global] Instance env_quiet_preorder {W} : PreOrder (env_quiet (W:=W)).
Proof.
  split.
  - intros s. unfold env_quiet. reflexivity.
  - intros s1 s2 s3 H12 H23. unfold env_quiet in *. by etransitivity.
Qed.

(** ** The orchestrator: what a dispatch leaves alone *)

Create HintDb stable discriminated.

(** Walks down a computation, leaving the primitive steps to the hints. *)
Ltac stable_go :=
  lazymatch goal with
  | |- PreOrder _ => typeclasses eauto
  | |- stable _ (bind _ _) => apply stable_bind; [ | | intros ? ]; stable_go
  | |- stable _ (try_except _ _ _) =>
      apply stable_try_except; [ | | intros ? ]; stable_go
  | |- stable _ (for_each _ _) => apply stable_for_each; [ | intros ? ]; stable_go
  | |- stable _ (for_range _ _) => apply stable_for_range; stable_go
  | |- stable _ (ret _) => apply stable_ret; stable_go
  | |- stable _ (raise _) => apply stable_raise; stable_go
  | |- stable _ (if ?b then _ else _) => destruct b; stable_go
  | |- stable _ (match ?x with _ => _ end) => destruct x; stable_go
  | |- _ => auto with stable
  end.

Section Frames.
Context {W : Type} `{!Platform W} {Str0 : Str}.

Lemma stable_emit_quiet (ev : event) :
  progress_of [ev] = [] -> stable (env_quiet (W:=W)) (emit ev).
Proof. intros Hev e. by exists [ev]. Qed.

Lemma stable_platform_quiet {A} (f : W -> result A * W) :
  stable (env_quiet (W:=W))
    (fun e => let '(res, w') := f (world e) in (res, MkEnv w' (trace e))).
Proof.
  intros e. destruct (f (world e)) as [res w']. simpl.
  unfold env_quiet. reflexivity.
Qed.

Lemma stable_logging_error_quiet msg : stable (env_quiet (W:=W)) (logging_error msg).
Proof. by apply stable_emit_quiet. Qed.

Lemma stable_logging_info_quiet msg : stable (env_quiet (W:=W)) (logging_info msg).
Proof. by apply stable_emit_quiet. Qed.

Hint Resolve stable_platform_quiet stable_logging_error_quiet
  stable_logging_info_quiet : stable.

Lemma stable_make_request_quiet method url headers data params verify :
  stable (env_quiet (W:=W)) (make_request method url headers data params verify).
Proof.
  unfold make_request, http_call. stable_go. by apply stable_emit_quiet.
Qed.

Lemma stable_in_env_silent {X A} (m : M (Env W) A) :
  stable env_quiet m -> stable (silent (X:=X)) (in_env m).
Proof.
  intros Hm [x e]. unfold in_env. simpl. specialize (Hm e).
  by destruct (m e) as [r e'].
Qed.

Lemma stable_update_self_silent {X} (f : X -> X) :
  stable (silent (W:=W)) (update_self f).
Proof. intros [x e]. unfold silent. simpl. reflexivity. Qed.

Lemma stable_read_self_silent {X} : stable (silent (X:=X) (W:=W)) read_self.
Proof. intros [x e]. unfold silent. simpl. reflexivity. Qed.

Lemma stable_call_token_silent {A} (m : M (Token * Env W) A) :
  stable silent m -> stable silent (call_token m).
Proof.
  intros Hm [p e]. unfold call_token. simpl.
  destruct (token p) as [t|].
  - specialize (Hm (t, e)). by destruct (m (t, e)) as [r [t' e']].
  - unfold silent. simpl. reflexivity.
Qed.

Hint Resolve stable_make_request_quiet stable_in_env_silent
  stable_update_self_silent stable_read_self_silent
  stable_call_token_silent : stable.

Lemma stable_refresh_silent headers :
  stable silent (refresh_access_token (W:=W) headers).
Proof. unfold refresh_access_token, response_json. stable_go. Qed.

Hint Resolve stable_refresh_silent : stable.

Lemma stable_process_response_silent r :
  stable silent (_process_response (W:=W) r).
Proof. unfold _process_response. stable_go. Qed.

Lemma stable_send_request_silent payload :
  stable silent (send_request (W:=W) payload).
Proof. unfold send_request. stable_go. Qed.

Lemma stable_set_authorization_silent :
  stable silent (set_authorization (W:=W)).
Proof. unfold set_authorization. stable_go. Qed.

Hint Resolve stable_process_response_silent stable_send_request_silent
  stable_set_authorization_silent : stable.

Lemma stable_make_request_body_silent payload :
  stable silent (_make_request_body (W:=W) payload).
Proof. unfold _make_request_body. stable_go. Qed.

Hint Resolve stable_make_request_body_silent : stable.

(** A dispatch adds no progress line to the trace. *)
Lemma stable__make_request_silent payload :
  stable silent (_make_request (W:=W) payload).
Proof. unfold _make_request. stable_go. Qed.

(** *** Attributes no method assigns *)

Lemma stable_in_env_keeps {X A B} (f : X -> B) (m : M (Env W) A) :
  stable (keeps f) (in_env m).
Proof. intros [x e]. unfold in_env, keeps. simpl. by destruct (m e). Qed.

Lemma stable_read_self_keeps {X B} (f : X -> B) :
  stable (keeps (E:=Env W) f) read_self.
Proof. by intros [x e]. Qed.

Lemma stable_update_self_keeps {X B} (f : X -> B) (g : X -> X) :
  (forall x, f (g x) = f x) -> stable (keeps (E:=Env W) f) (update_self g).
Proof. intros Hg [x e]. unfold keeps. simpl. apply Hg. Qed.

Lemma stable_call_token_keeps {A B} (f : Pyllow -> B) (m : M (Token * Env W) A) :
  (forall t p, f (set_token t p) = f p) -> stable (keeps f) (call_token m).
Proof.
  intros Hf [p e]. unfold call_token, keeps. simpl.
  destruct (token p) as [t|]; [|done].
  destruct (m (t, e)) as [r [t' e']]. simpl. apply Hf.
Qed.

Hint Resolve stable_in_env_keeps stable_read_self_keeps : stable.

Ltac keeps_go :=
  stable_go;
  first [ apply stable_update_self_keeps; intros []; reflexivity
        | apply stable_call_token_keeps; intros ? []; reflexivity ].

Lemma stable_process_response_keeps r :
  stable (keeps counted) (_process_response (W:=W) r).
Proof. unfold _process_response. keeps_go. Qed.

Lemma stable_set_authorization_keeps :
  stable (keeps counted) (set_authorization (W:=W)).
Proof. unfold set_authorization. keeps_go. Qed.

Lemma stable_send_request_keeps payload :
  stable (keeps counted) (send_request (W:=W) payload).
Proof. unfold send_request. stable_go. Qed.

Hint Resolve stable_process_response_keeps stable_set_authorization_keeps
  stable_send_request_keeps : stable.

(** A dispatch changes neither the configuration nor the counter. *)
Lemma stable__make_request_keeps payload :
  stable (keeps counted) (_make_request (W:=W) payload).
Proof.
  unfold _make_request, _make_request_body. stable_go.
  apply stable_call_token_keeps. by intros ? [].
Qed.

(** *** One dispatch, step by step *)

Lemma set_token_same (p : Pyllow) (t : Token) :
  token p = Some t -> set_token (Some t) p = p.
Proof. destruct p. simpl. by intros ->. Qed.

Lemma set_authorization_eq (p : Pyllow) (e : Env W) (tok : Token) :
  token p = Some tok ->
  set_authorization (p, e) =
    (Return tt,
     (set_headers
        (<["Authorization" := "Bearer " ++ format_opt_str (access_token tok)]>
           (headers p)) p, e)).
Proof.
  intros Ht. unfold set_authorization, bind, call_token, read_self,
    update_self, modify. simpl. rewrite Ht. simpl.
  by rewrite (set_token_same p tok Ht).
Qed.

Lemma send_request_returns payload (p : Pyllow) (e : Env W) resp w' :
  requests_request (build_request payload p) (world e) = (Return resp, w') ->
  send_request payload (p, e) =
    (Return resp, (p, MkEnv w' (trace e ++ [Sent (build_request payload p)]))).
Proof.
  intros Hw. unfold build_request in Hw.
  unfold send_request, bind, read_self, in_env, make_request, try_except,
    http_call, bind, emit, modify. simpl. by rewrite Hw.
Qed.

Lemma send_request_raises payload (p : Pyllow) (e : Env W) ex w' :
  requests_request (build_request payload p) (world e) = (Raise ex, w') ->
  send_request payload (p, e) =
    (Raise ex,
     (p, MkEnv w' (trace e ++ [Sent (build_request payload p)]
                     ++ request_failed_log ex))).
Proof.
  intros Hw. unfold build_request in Hw.
  unfold send_request, bind, read_self, in_env, make_request, try_except,
    http_call, bind, emit, modify, logging_error, emit, modify, raise,
    request_failed_log. simpl. rewrite Hw. simpl.
  destruct (is_RequestException ex); simpl; by rewrite <- ?app_assoc, ?app_nil_r.
Qed.

(** The body of a dispatch is its first request followed by the rest. *)
Lemma _make_request_body_eq payload (p : Pyllow) (e : Env W) :
  _make_request_body payload (p, e) =
    bind (send_request payload) (fun response =>
      let* self := read_self in
      let* response :=
        (if (status_code response =? 401)%Z && bool_decide (is_Some (token self))
         then
           call_token (refresh_access_token (headers self)) >>
           set_authorization >>
           send_request payload
         else ret response) in
      _process_response response) (authorized p, e).
Proof.
  unfold _make_request_body at 1, authorized.
  unfold bind at 1. unfold read_self at 1. simpl.
  unfold bind at 1.
  destruct (token p) as [tok|] eqn:Ht; [|done].
  destruct (truthy_str (access_token tok)); [|done].
  by rewrite (set_authorization_eq p e tok Ht).
Qed.

(** Every dispatch starts by sending the request built from its payload,
    and adds no progress line. *)
Lemma _make_request_first_send payload (p : Pyllow) (e : Env W) :
  exists evs,
    trace (snd (snd (_make_request payload (p, e)))) =
      (trace e ++ Sent (build_request payload (authorized p)) :: evs)%list /\
    progress_of evs = [].
Proof.
  assert (Hbody : exists evs,
    trace (snd (snd (_make_request_body payload (p, e)))) =
      (trace e ++ Sent (build_request payload (authorized p)) :: evs)%list /\
    progress_of evs = []).
  { rewrite _make_request_body_eq.
    match goal with
    | |- context [bind (send_request payload) ?k] => set (K := k)
    end.
    assert (HK : forall resp, stable silent (K resp)) by (intros; unfold K; stable_go).
    unfold bind at 1.
    destruct (requests_request (build_request payload (authorized p)) (world e))
      as [[resp|ex] w'] eqn:Hw.
    - rewrite (send_request_returns _ _ _ _ _ Hw).
      destruct (HK resp (authorized p,
                  MkEnv w' (trace e ++ [Sent (build_request payload (authorized p))])))
        as [evs [Hevs Hq]].
      simpl in Hevs. exists evs. split; [|done].
      rewrite Hevs. by rewrite <- app_assoc.
    - rewrite (send_request_raises _ _ _ _ _ Hw). simpl.
      exists (request_failed_log ex). split; [done|].
      unfold request_failed_log. by destruct (is_RequestException ex). }
  destruct Hbody as [evs [Hevs Hq]].
  unfold _make_request, try_except.
  destruct (_make_request_body payload (p, e)) as [[[]|ex] [p' e']]; simpl in *.
  - by exists evs.
  - exists (evs ++ [LogError ("Error during request: " ++ exn_msg ex)])%list.
    rewrite Hevs. rewrite <- app_assoc. split; [done|].
    unfold progress_of in *. by rewrite omap_app, Hq.
Qed.

(** [_make_request] never raises. *)
Lemma _make_request_returns payload (s : Pyllow * Env W) :
  fst (_make_request payload s) = Return tt.
Proof.
  unfold _make_request, try_except.
  by destruct (_make_request_body payload s) as [[[]|ex] s'].
Qed.

(** *** The loop *)

Lemma static_of_counted (p p' : Pyllow) :
  counted p' = counted p ->
  static p' = static p /\ completed_requests p' = completed_requests p.
Proof.
  intros Hc. split; [exact (f_equal fst Hc) | exact (f_equal snd Hc)].
Qed.

Lemma stable_dispatch_static payload :
  stable (keeps static) (dispatch (W:=W) payload).
Proof.
  unfold dispatch, _log_progress. stable_go;
    try (apply stable_update_self_keeps; by intros []).
  intros s. unfold keeps.
  by destruct (static_of_counted _ _ (stable__make_request_keeps payload s)).
Qed.

(** The counter goes up by one at each dispatch, whatever happened to it. *)
Lemma dispatch_counts payload (s : Pyllow * Env W) :
  completed_requests (fst (snd (dispatch payload s))) =
    completed_requests (fst s) + 1.
Proof.
  unfold dispatch. unfold bind at 1.
  pose proof (_make_request_returns payload s) as Hr.
  pose proof (stable__make_request_keeps payload s) as Hk.
  apply static_of_counted in Hk as [_ Hc].
  destruct (_make_request payload s) as [r [p1 e1]]. simpl in Hr, Hc. subst r.
  rewrite <- Hc.
  match goal with
  | |- completed_requests (fst (snd (bind _ ?k _))) = _ => set (K := k)
  end.
  assert (HK : stable (keeps completed_requests) (K tt)).
  { unfold K, _log_progress. stable_go. }
  unfold bind at 1, update_self at 1, modify. simpl.
  by rewrite (HK (set_completed_requests (completed_requests p1 + 1) p1, e1)).
Qed.

(** One dispatch on an object whose total is not zero: the request, the
    counter and the progress line are there whatever the pause does, and
    the dispatch raises only what [time.sleep] raised. *)
Lemma dispatch_outcome payload (p : Pyllow) (e : Env W) :
  total_requests p <> 0 ->
  exists r p' e' evs,
    dispatch payload (p, e) = (r, (p', e')) /\
    static p' = static p /\
    completed_requests p' = completed_requests p + 1 /\
    trace e' = (trace e ++ Sent (build_request payload (authorized p)) :: evs)%list /\
    progress_of evs = [(completed_requests p + 1, total_requests p)] /\
    (pause_returns (sleep_time p) -> r = Return tt) /\
    (forall ex, r = Raise ex ->
       (0 ?= sleep_time p)%Qc = Lt /\
       exists w, fst (time_sleep (sleep_time p) w) = Raise ex).
Proof.
  intros Htotal.
  pose proof (dispatch_counts payload (p, e)) as Hcount.
  pose proof (stable_dispatch_static payload (p, e)) as Hstatic.
  assert (Hrun : exists r p' e' evs,
    dispatch payload (p, e) = (r, (p', e')) /\
    trace e' = (trace e ++ Sent (build_request payload (authorized p)) :: evs)%list /\
    progress_of evs = [(completed_requests p + 1, total_requests p)] /\
    (pause_returns (sleep_time p) -> r = Return tt) /\
    (forall ex, r = Raise ex ->
       (0 ?= sleep_time p)%Qc = Lt /\
       exists w, fst (time_sleep (sleep_time p) w) = Raise ex)).
  { unfold dispatch. unfold bind at 1.
    pose proof (_make_request_returns payload (p, e)) as Hr.
    pose proof (stable__make_request_keeps payload (p, e)) as Hk.
    apply static_of_counted in Hk as [Hs Hc].
    destruct (_make_request_first_send payload p e) as [evs [Hevs Hq]].
    destruct (_make_request payload (p, e)) as [r [p1 e1]].
    simpl in Hr, Hs, Hc, Hevs. subst r.
    assert (Ht : total_requests p1 = total_requests p) by (by injection Hs).
    assert (Hz : sleep_time p1 = sleep_time p) by (by injection Hs).
    unfold _log_progress, update_self, read_self, in_env, sleep, emit, modify,
      bind.
    simpl. rewrite Ht.
    destruct (Z.eqb_spec (total_requests p) 0) as [|_]; [done|]. simpl.
    rewrite Hz.
    destruct (0 ?= sleep_time p)%Qc eqn:Hpause; simpl.
    1, 3: eexists _, _, _, _; (split; [reflexivity|]);
      simpl; rewrite Hevs, Hc, <- !app_assoc; simpl;
      (split; [reflexivity|]);
      (split; [unfold progress_of in *; rewrite ?omap_app, Hq; reflexivity|]);
      (split; [done|]); intros ex; discriminate.
    destruct (time_sleep (sleep_time p) (world e1)) as [[[]|ex] w'] eqn:Hsleep;
      simpl;
      eexists _, _, _, _; (split; [reflexivity|]);
      simpl; rewrite Hevs, Hc, <- !app_assoc; simpl;
      (split; [reflexivity|]);
      (split; [unfold progress_of in *; rewrite ?omap_app, Hq; reflexivity|]).
    - split; [done|]. intros ex; discriminate.
    - split.
      + intros Hret. specialize (Hret Hpause (world e1)).
        rewrite Hsleep in Hret. discriminate.
      + intros ex' [= <-]. split; [done|]. exists (world e1). by rewrite Hsleep. }
  destruct Hrun as (r & p' & e' & evs & Hd & Ht & Hp & Hret & Hraise).
  rewrite Hd in Hcount, Hstatic. exists r, p', e', evs.
  split; [done|]. split; [exact Hstatic|]. split; [exact Hcount|]. done.
Qed.

Lemma static_total (p p' : Pyllow) :
  static p' = static p ->
  total_requests p' = total_requests p /\ method p' = method p /\
  payloads p' = payloads p.
Proof. unfold static. intros [= ]. auto. Qed.

Lemma static_sleep_time (p p' : Pyllow) :
  static p' = static p -> sleep_time p' = sleep_time p.
Proof. unfold static. intros [= ]. auto. Qed.

(** Dispatching a list of payloads raises only what [time.sleep] raised. *)
Lemma for_each_dispatch_raises (ps : list pydict) (p : Pyllow) (e : Env W) ex :
  total_requests p <> 0 ->
  fst (for_each ps dispatch (p, e)) = Raise ex ->
  (0 ?= sleep_time p)%Qc = Lt /\
  exists w, fst (time_sleep (sleep_time p) w) = Raise ex.
Proof.
  revert p e. induction ps as [|payload ps IH]; intros p e Htotal; [done|].
  destruct (dispatch_outcome payload p e Htotal)
    as (r & p1 & e1 & evs & Hd & Hs & _ & _ & _ & _ & Hraise).
  simpl. unfold bind. rewrite Hd. destruct r as [[]|ex1]; simpl.
  - destruct (static_total _ _ Hs) as (Htot & _ & _).
    rewrite <- (static_sleep_time _ _ Hs). apply IH. congruence.
  - intros [= ->]. by apply Hraise.
Qed.

(** Dispatching a list of payloads, whatever the pause does: the payloads
    dispatched are an initial segment of the list, all of it when the loop
    returns. *)
Lemma for_each_dispatch_prefix (ps : list pydict) (p : Pyllow) (e : Env W) :
  total_requests p <> 0 ->
  exists (n : nat) r p' e' evs,
    for_each ps dispatch (p, e) = (r, (p', e')) /\
    (n <= length ps)%nat /\
    (ps <> [] -> (1 <= n)%nat) /\
    (r = Return tt -> n = length ps) /\
    static p' = static p /\
    completed_requests p' = completed_requests p + Z.of_nat n /\
    trace e' = (trace e ++ evs)%list /\
    dispatch_trace (is_POST (method p)) (total_requests p)
      (completed_requests p) (take n ps) evs.
Proof.
  revert p e. induction ps as [|payload ps IH]; intros p e Htotal.
  - exists 0%nat, (Return tt), p, e, []. simpl. rewrite app_nil_r, Z.add_0_r.
    repeat split; try done. constructor.
  - destruct (dispatch_outcome payload p e Htotal)
      as (r & p1 & e1 & evs1 & Hd & Hs1 & Hc1 & Ht1 & Hp1 & _ & _).
    destruct (static_total _ _ Hs1) as (Htot & Hm & _).
    assert (Hreq : req_data (build_request payload (authorized p)) =
                   if is_POST (method p) then Some payload else None).
    { unfold build_request, authorized. simpl.
      destruct (token p) as [tok|]; [|done].
      by destruct (truthy_str (access_token tok)). }
    destruct r as [[]|ex].
    + destruct (IH p1 e1)
        as (n & r & p2 & e2 & evs2 & Hf & Hn & Hpos & Hall & Hs2 & Hc2 & Ht2 & Hp2);
        [congruence|].
      exists (S n), r, p2, e2,
        (Sent (build_request payload (authorized p)) :: evs1 ++ evs2)%list.
      split; [simpl; unfold bind; by rewrite Hd|].
      split; [simpl; lia|]. split; [lia|].
      split; [intros Hr; simpl; f_equal; by apply Hall|].
      split; [congruence|]. split; [rewrite Hc2, Hc1; lia|].
      split; [rewrite Ht2, Ht1; by rewrite <- app_assoc|].
      simpl take. rewrite Htot, Hm, Hc1 in Hp2. by constructor.
    + exists 1%nat, (Raise ex), p1, e1,
        (Sent (build_request payload (authorized p)) :: evs1 ++ [])%list.
      split; [simpl; unfold bind; by rewrite Hd|].
      split; [simpl; lia|]. split; [done|]. split; [done|]. split; [done|].
      split; [rewrite Hc1; lia|].
      split; [by rewrite Ht1, app_nil_r|].
      simpl take. rewrite take_0. constructor; [done|done|constructor].
Qed.

Lemma for_each_app {St A} (xs ys : list A) (body : A -> M St unit) (s : St) :
  for_each (xs ++ ys) body s = (for_each xs body >> for_each ys body) s.
Proof.
  revert s. induction xs as [|x xs IH]; intros s; [done|].
  simpl. unfold bind.
  destruct (body x s) as [[[]|ex] s1]; [|done].
  rewrite IH. done.
Qed.

Lemma stable_for_each_dispatch_static (ps : list pydict) :
  stable (keeps static) (for_each ps (dispatch (W:=W))).
Proof.
  apply stable_for_each; [typeclasses eauto|].
  intros payload. apply stable_dispatch_static.
Qed.

(** The loop of [run] dispatches the schedule, in order. *)
Lemma for_range_run_iteration (n : nat) (s : Pyllow * Env W) :
  for_range n run_iteration s =
    for_each
      (if is_POST (method (fst s))
       then concat (replicate n (payloads (fst s)))
       else replicate n ∅) dispatch s.
Proof.
  revert s. induction n as [|n IH]; intros s.
  - simpl. by destruct (is_POST (method (fst s))).
  - simpl for_range. unfold bind at 1. unfold run_iteration at 1.
    unfold bind at 1, read_self at 1. cbn beta iota.
    change (fst (fst s, s).2) with (fst s).
    destruct (is_POST (method (fst s))) eqn:Hpost.
    + simpl concat. rewrite for_each_app. unfold bind.
      pose proof (stable_for_each_dispatch_static (payloads (fst s)) s) as Hk.
      destruct (for_each (payloads (fst s)) dispatch s) as [[[]|ex] s1]; [|done].
      apply static_total in Hk as (_ & Hm & Hp). simpl in Hm, Hp.
      rewrite IH, Hm, Hp, Hpost. done.
    + simpl replicate. simpl for_each. unfold bind.
      pose proof (stable_dispatch_static ∅ s) as Hk.
      destruct (dispatch ∅ s) as [[[]|ex] s1]; [|done].
      apply static_total in Hk as (_ & Hm & Hp). simpl in Hm, Hp.
      rewrite IH, Hm, Hpost. done.
Qed.

Lemma run_loop_schedule (s : Pyllow * Env W) :
  run_loop s = for_each (schedule (fst s)) dispatch s.
Proof.
  unfold run_loop, schedule. unfold bind at 1, read_self at 1. simpl.
  apply for_range_run_iteration.
Qed.

Lemma run_loop_no_loops (s : Pyllow * Env W) :
  loops (fst s) <= 0 -> run_loop s = (Return tt, s).
Proof.
  intros HL. unfold run_loop, bind, read_self. cbn [fst snd].
  replace (Z.to_nat (loops (fst s))) with 0%nat by lia. reflexivity.
Qed.

Lemma length_concat_replicate {A} (n : nat) (xs : list A) :
  length (concat (replicate n xs)) = (n * length xs)%nat.
Proof.
  induction n as [|n IH]; [done|].
  simpl. rewrite length_app, IH. lia.
Qed.

Lemma payloads_init_nonempty (a : InitArgs) : payloads (Pyllow_init a) <> [].
Proof. simpl. unfold list_or. by destruct (arg_payloads a) as [[|x xs]|]. Qed.

Lemma total_requests_init_pos (a : InitArgs) :
  1 <= arg_loops a -> 1 <= total_requests (Pyllow_init a).
Proof.
  intros HL. pose proof (payloads_init_nonempty a) as Hne. simpl in *.
  destruct (is_POST (arg_method a)); [|done].
  destruct (list_or (arg_payloads a) [∅]) as [|x xs]; [done|].
  simpl length. nia.
Qed.

Lemma length_schedule_init (a : InitArgs) :
  0 <= arg_loops a ->
  Z.of_nat (length (schedule (Pyllow_init a))) = total_requests (Pyllow_init a).
Proof.
  intros HL. unfold schedule. simpl.
  destruct (is_POST (arg_method a)).
  - rewrite length_concat_replicate. nia.
  - rewrite length_replicate. lia.
Qed.

(** The loop of a freshly built orchestrator raises only what [time.sleep]
    raised on its [sleep_time]. *)
Lemma run_loop_init_raises (a : InitArgs) (e : Env W) ex :
  fst (run_loop (Pyllow_init a, e)) = Raise ex ->
  (0 ?= arg_sleep_time a)%Qc = Lt /\
  exists w, fst (time_sleep (arg_sleep_time a) w) = Raise ex.
Proof.
  rewrite run_loop_schedule.
  destruct (Z_lt_le_dec (arg_loops a) 1) as [HL|HL].
  - unfold schedule. simpl.
    replace (Z.to_nat (arg_loops a)) with 0%nat by lia.
    by destruct (is_POST (arg_method a)).
  - pose proof (total_requests_init_pos a HL) as Hpos.
    apply (for_each_dispatch_raises _ (Pyllow_init a)). lia.
Qed.

(** The loop of a freshly built orchestrator, whatever the pause does. *)
Lemma run_loop_init_prefix (a : InitArgs) (e : Env W) :
  1 <= arg_loops a ->
  exists (n : nat) r p' e' evs,
    run_loop (Pyllow_init a, e) = (r, (p', e')) /\
    1 <= Z.of_nat n <= total_requests (Pyllow_init a) /\
    (r = Return tt -> Z.of_nat n = total_requests (Pyllow_init a)) /\
    static p' = static (Pyllow_init a) /\
    completed_requests p' = Z.of_nat n /\
    trace e' = (trace e ++ evs)%list /\
    dispatch_trace (is_POST (arg_method a)) (total_requests (Pyllow_init a)) 0
      (take n (schedule (Pyllow_init a))) evs.
Proof.
  intros HL. rewrite run_loop_schedule.
  pose proof (total_requests_init_pos a HL) as Hpos.
  pose proof (length_schedule_init a ltac:(lia)) as Hlen.
  destruct (for_each_dispatch_prefix (schedule (Pyllow_init a)) (Pyllow_init a) e)
    as (n & r & p' & e' & evs & Hf & Hn & Hone & Hall & Hs & Hc & Ht & Hd); [lia|].
  exists n, r, p', e', evs. split; [exact Hf|].
  assert (Hne : schedule (Pyllow_init a) <> []).
  { intros Hnil. rewrite Hnil in Hlen. simpl length in Hlen. lia. }
  specialize (Hone Hne).
  split; [lia|]. split; [intros Hr; rewrite (Hall Hr); exact Hlen|].
  split; [exact Hs|]. split; [rewrite Hc; simpl; lia|]. by split.
Qed.

(** The loop of a freshly built orchestrator returns when the pause does. *)
Lemma run_loop_init_returns (a : InitArgs) (e : Env W) :
  pause_returns (arg_sleep_time a) ->
  fst (run_loop (Pyllow_init a, e)) = Return tt.
Proof.
  intros Hpause.
  destruct (run_loop (Pyllow_init a, e)) as [[[]|ex] s1] eqn:Hloop; [done|].
  destruct (run_loop_init_raises a e ex) as (Hlt & w & Hw);
    [by rewrite Hloop|].
  rewrite (Hpause Hlt w) in Hw. discriminate.
Qed.

(** The loop of a freshly built orchestrator, when it returns, has been
    through the whole schedule. *)
Lemma run_loop_init_spec (a : InitArgs) (e : Env W) :
  1 <= arg_loops a ->
  fst (run_loop (Pyllow_init a, e)) = Return tt ->
  exists p' e' evs,
    run_loop (Pyllow_init a, e) = (Return tt, (p', e')) /\
    static p' = static (Pyllow_init a) /\
    completed_requests p' = total_requests (Pyllow_init a) /\
    trace e' = (trace e ++ evs)%list /\
    dispatch_trace (is_POST (arg_method a)) (total_requests (Pyllow_init a)) 0
      (schedule (Pyllow_init a)) evs.
Proof.
  intros HL Hret.
  pose proof (length_schedule_init a ltac:(lia)) as Hlen.
  destruct (run_loop_init_prefix a e HL)
    as (n & r & p' & e' & evs & Hr & Hn & Hall & Hs & Hc & Ht & Hd).
  rewrite Hr in Hret. cbn [fst] in Hret. subst r.
  specialize (Hall ltac:(reflexivity)).
  exists p', e', evs. split; [exact Hr|]. split; [exact Hs|].
  split; [by rewrite Hc|]. split; [exact Ht|].
  rewrite take_ge in Hd by lia. exact Hd.
Qed.

(** The progress lines of a dispatch trace count up from the counter. *)
Lemma dispatch_trace_progress post total c ps evs :
  dispatch_trace post total c ps evs ->
  progress_of evs =
    map (fun i => (c + Z.of_nat i, total)) (seq 1 (length ps)).
Proof.
  induction 1 as [c|c payload rest r evs evs' Hr Hp _ IH]; [done|].
  unfold progress_of in *. simpl omap. rewrite omap_app, Hp, IH.
  simpl. f_equal. rewrite <- (seq_shift (length rest) 1), map_map.
  apply map_ext. intros i. f_equal. lia.
Qed.

Lemma dispatch_trace_last_progress post total c ps evs :
  dispatch_trace post total c ps evs -> ps <> [] ->
  last (progress_of evs) = Some (c + Z.of_nat (length ps), total).
Proof.
  intros Hd Hne. rewrite (dispatch_trace_progress _ _ _ _ _ Hd).
  destruct ps as [|x xs _] using rev_ind; [done|].
  rewrite length_app. simpl length. rewrite Nat.add_1_r.
  rewrite seq_S, map_app. simpl. rewrite last_snoc. do 3 f_equal; lia.
Qed.

(** [run] assigns none of the configuration attributes. *)
Lemma stable_run_static : stable (keeps static) (run (W:=W)).
Proof.
  unfold run, run_loop, run_iteration, _save_results, _save_condition_results.
  stable_go; apply stable_dispatch_static.
Qed.

(** Saving the results changes nothing of the object: [run] leaves it as
    its loop did. *)
Lemma run_object (s : Pyllow * Env W) :
  fst (snd (run s)) = fst (snd (run_loop s)).
Proof.
  unfold run. unfold bind at 1.
  destruct (run_loop s) as [[[]|ex] s1]; [|done].
  match goal with
  | |- fst (snd (?m s1)) = _ =>
      assert (Hm : stable (keeps (fun p : Pyllow => p)) m)
  end.
  { unfold _save_results, _save_condition_results. stable_go. }
  exact (Hm s1).
Qed.

(** ** The claims about the loop *)

Lemma is_POST_true (m : string) : upper m = "POST" -> is_POST m = true.
Proof. intros Hm. unfold is_POST. rewrite Hm. reflexivity. Qed.

Lemma is_POST_false (m : string) : upper m <> "POST" -> is_POST m = false.
Proof. intros Hm. unfold is_POST. by apply String.eqb_neq. Qed.

(** C5 (amended): with L loops (L at least 1) and P payloads supplied,
    total_requests at construction is L * P when the method is POST and P is
    at least 1, L when the method is POST and no payload is supplied (a
    missing or empty list stands for one empty payload), and L when the
    method is not POST; no dispatch and no run assigns it again. *)
Theorem total_requests_fixed (a : InitArgs) (L : Z) (P : nat) (e : Env W) :
  1 <= L ->
  arg_loops a = L ->
  length (default [] (arg_payloads a)) = P ->
  (upper (arg_method a) = "POST" ->
   total_requests (Pyllow_init a) =
     match P with O => L | S _ => L * Z.of_nat P end) /\
  (upper (arg_method a) <> "POST" -> total_requests (Pyllow_init a) = L) /\
  (forall payload (s : Pyllow * Env W),
     total_requests (fst (snd (dispatch payload s))) = total_requests (fst s)) /\
  total_requests (fst (snd (run (Pyllow_init a, e)))) =
    total_requests (Pyllow_init a).
Proof.
  intros _ HL HP. split; [|split; [|split]].
  - intros Hpost. simpl. rewrite (is_POST_true _ Hpost), HL. subst P.
    unfold list_or. destruct (arg_payloads a) as [[|x xs]|]; simpl; lia.
  - intros Hother. simpl. by rewrite (is_POST_false _ Hother).
  - intros payload s.
    by destruct (static_total _ _ (stable_dispatch_static payload s)).
  - by destruct (static_total _ _ (stable_run_static (Pyllow_init a, e))).
Qed.

(** C6 (amended): the loop of a POST run is the dispatches of the whole
    payload list, in order, once per loop, and nothing else.  It raises only
    what [time.sleep] raised between two dispatches and returns when that
    pause returns; when it returns, the counter ends at the number of these
    dispatches, which is the total, and the trace is theirs, each dispatch
    starting with the request that carries its payload and logging its
    progress line.  With the payloads [p1, p2] and two loops the total is 4
    and the dispatches are p1, p2, p1, p2 in that order. *)
Theorem post_run_dispatches_in_order (a : InitArgs) (e : Env W) :
  upper (arg_method a) = "POST" ->
  let out := run_loop (Pyllow_init a, e) in
  let order :=
    concat (replicate (Z.to_nat (arg_loops a)) (payloads (Pyllow_init a))) in
  out = for_each order dispatch (Pyllow_init a, e) /\
  (forall ex, fst out = Raise ex ->
     (0 ?= arg_sleep_time a)%Qc = Lt /\
     exists w, fst (time_sleep (arg_sleep_time a) w) = Raise ex) /\
  (pause_returns (arg_sleep_time a) -> fst out = Return tt) /\
  (fst out = Return tt ->
   completed_requests (fst (snd out)) = Z.of_nat (length order) /\
   completed_requests (fst (snd (run (Pyllow_init a, e)))) =
     Z.of_nat (length order) /\
   exists evs,
     trace (snd (snd out)) = (trace e ++ evs)%list /\
     dispatch_trace true (total_requests (Pyllow_init a)) 0 order evs) /\
  (0 <= arg_loops a ->
   Z.of_nat (length order) = total_requests (Pyllow_init a)) /\
  (forall p1 p2 : pydict,
     arg_payloads a = Some [p1; p2] -> arg_loops a = 2 ->
     total_requests (Pyllow_init a) = 4 /\
     order = [p1; p2; p1; p2] /\
     out = (dispatch p1 >> dispatch p2 >> dispatch p1 >> dispatch p2 >> ret tt)
             (Pyllow_init a, e)).
Proof.
  intros Hpost out order.
  apply is_POST_true in Hpost.
  assert (Hsched : schedule (Pyllow_init a) = order).
  { unfold schedule. simpl. by rewrite Hpost. }
  assert (Hout : out = for_each order dispatch (Pyllow_init a, e)).
  { subst out. rewrite run_loop_schedule.
    change (fst (Pyllow_init a, e)) with (Pyllow_init a). by rewrite Hsched. }
  assert (Hlen : 0 <= arg_loops a ->
                 Z.of_nat (length order) = total_requests (Pyllow_init a)).
  { intros HL. rewrite <- Hsched. by apply length_schedule_init. }
  split; [exact Hout|].
  split; [intros ex; apply run_loop_init_raises|].
  split; [apply run_loop_init_returns|]. split.
  { intros Hret. rewrite run_object.
    destruct (Z_lt_le_dec (arg_loops a) 1) as [HL|HL].
    - assert (Hnone : order = []).
      { subst order. by replace (Z.to_nat (arg_loops a)) with 0%nat by lia. }
      subst out. rewrite run_loop_no_loops by (simpl; lia). rewrite Hnone.
      cbn [fst snd length]. split; [done|]. split; [done|].
      exists []. rewrite app_nil_r. split; [done|constructor].
    - destruct (run_loop_init_spec a e HL Hret)
        as (p' & e' & evs & Hr & _ & Hc & Ht & Hd).
      subst out. rewrite Hr. cbn [fst snd].
      assert (Hdone : completed_requests p' = Z.of_nat (length order))
        by (rewrite Hc, Hlen; [done|lia]).
      split; [exact Hdone|]. split; [exact Hdone|].
      exists evs. split; [done|]. by rewrite Hpost, Hsched in Hd. }
  split; [exact Hlen|].
  intros p1 p2 Hps H2.
  assert (Horder : order = [p1; p2; p1; p2]).
  { subst order. simpl. by rewrite Hps, H2. }
  split; [|split; [exact Horder|]].
  - simpl. by rewrite Hpost, Hps, H2.
  - rewrite Hout, Horder. reflexivity.
Qed.

(** C9 (amended): an exception raised inside a dispatch, from the transport
    or from the token refresh, is caught and logged there and goes no
    further, and the counter goes up by one for the dispatch all the same.
    The loop of a run raises only what [time.sleep], called between two
    dispatches, raised, and returns when that pause returns; when it returns
    it has been through all its dispatches and the last progress line it
    logged is total over total, whatever failed. *)
Theorem dispatch_failures_are_swallowed (a : InitArgs) (e : Env W) :
  1 <= arg_loops a ->
  (forall payload (s : Pyllow * Env W),
     fst (_make_request payload s) = Return tt) /\
  (forall payload (s : Pyllow * Env W) ex,
     fst (_make_request_body payload s) = Raise ex ->
     last (trace (snd (snd (_make_request payload s)))) =
       Some (LogError ("Error during request: " ++ exn_msg ex))) /\
  (forall payload (s : Pyllow * Env W),
     completed_requests (fst (snd (dispatch payload s))) =
       completed_requests (fst s) + 1) /\
  let out := run_loop (Pyllow_init a, e) in
  (forall ex, fst out = Raise ex ->
     (0 ?= arg_sleep_time a)%Qc = Lt /\
     exists w, fst (time_sleep (arg_sleep_time a) w) = Raise ex) /\
  (pause_returns (arg_sleep_time a) -> fst out = Return tt) /\
  (fst out = Return tt ->
   completed_requests (fst (snd out)) = total_requests (fst (snd out)) /\
   completed_requests (fst (snd (run (Pyllow_init a, e)))) =
     total_requests (Pyllow_init a) /\
   exists evs,
     trace (snd (snd out)) = (trace e ++ evs)%list /\
     dispatch_trace (is_POST (arg_method a)) (total_requests (Pyllow_init a)) 0
       (schedule (Pyllow_init a)) evs /\
     last (progress_of evs) =
       Some (total_requests (Pyllow_init a), total_requests (Pyllow_init a))).
Proof.
  intros HL. split; [apply _make_request_returns|]. split.
  { intros payload s ex Hb. unfold _make_request, try_except.
    destruct (_make_request_body payload s) as [r [p' e']]. simpl in Hb.
    subst r. simpl. apply last_snoc. }
  split; [apply dispatch_counts|].
  split; [intros ex; apply run_loop_init_raises|].
  split; [apply run_loop_init_returns|].
  intros Hret.
  destruct (run_loop_init_spec a e HL Hret)
    as (p' & e' & evs & Hr & Hs & Hc & Ht & Hd).
  rewrite run_object, Hr. simpl. split.
  { destruct (static_total _ _ Hs) as (-> & _). exact Hc. }
  split; [exact Hc|].
  exists evs. split; [done|]. split; [done|].
  assert (Hne : schedule (Pyllow_init a) <> []).
  { intros Hnil. pose proof (length_schedule_init a ltac:(lia)) as Hlen.
    rewrite Hnil in Hlen. pose proof (total_requests_init_pos a HL).
    simpl length in Hlen. lia. }
  rewrite (dispatch_trace_last_progress _ _ _ _ _ Hd Hne).
  rewrite length_schedule_init by lia. done.
Qed.

(** C10 (amended): built with at least one loop, an orchestrator never
    holds an empty payload list (a missing or empty argument becomes one
    empty payload), so its total is at least 1 and logging the progress
    never divides by zero, at construction or in the loop, which raises
    only what [time.sleep] raised.  In a POST run built without payloads
    every iteration of the loop is one dispatch of the empty payload, which
    starts with a request whose body is that payload; the loop returns when
    the pause between dispatches returns, and when it returns its trace is
    that of one such dispatch per loop. *)
Theorem payloads_never_empty (a : InitArgs) (e : Env W) :
  1 <= arg_loops a ->
  payloads (Pyllow_init a) <> [] /\
  1 <= total_requests (Pyllow_init a) /\
  (forall s : Pyllow * Env W,
     total_requests (fst s) = total_requests (Pyllow_init a) ->
     fst (_log_progress s) = Return tt) /\
  (forall ex, fst (run_loop (Pyllow_init a, e)) = Raise ex ->
     (0 ?= arg_sleep_time a)%Qc = Lt /\
     exists w, fst (time_sleep (arg_sleep_time a) w) = Raise ex) /\
  (upper (arg_method a) = "POST" ->
   arg_payloads a = None \/ arg_payloads a = Some [] ->
   payloads (Pyllow_init a) = [∅] /\
   total_requests (Pyllow_init a) = arg_loops a /\
   (forall s : Pyllow * Env W, static (fst s) = static (Pyllow_init a) ->
      run_iteration s = (dispatch ∅ >> ret tt) s /\
      exists r evs,
        trace (snd (snd (dispatch ∅ s))) =
          (trace (snd s) ++ Sent r :: evs)%list /\
        req_data r = Some ∅ /\
        progress_of evs = [(completed_requests (fst s) + 1, arg_loops a)]) /\
   (pause_returns (arg_sleep_time a) ->
    fst (run_loop (Pyllow_init a, e)) = Return tt) /\
   (fst (run_loop (Pyllow_init a, e)) = Return tt ->
    exists evs,
      trace (snd (snd (run_loop (Pyllow_init a, e)))) = (trace e ++ evs)%list /\
      dispatch_trace true (arg_loops a) 0
        (replicate (Z.to_nat (arg_loops a)) ∅) evs)).
Proof.
  intros HL. pose proof (total_requests_init_pos a HL) as Hpos.
  split; [apply payloads_init_nonempty|]. split; [exact Hpos|]. split.
  { intros [p' e'] Ht. unfold _log_progress, bind, read_self.
    cbn [fst snd] in *. rewrite Ht.
    destruct (Z.eqb_spec (total_requests (Pyllow_init a)) 0); [lia|].
    done. }
  split; [intros ex; apply run_loop_init_raises|].
  intros Hpost Hps. apply is_POST_true in Hpost.
  assert (Hpl : payloads (Pyllow_init a) = [∅]).
  { simpl. by destruct Hps as [-> | ->]. }
  assert (Htotal : total_requests (Pyllow_init a) = arg_loops a).
  { simpl. rewrite Hpost. destruct Hps as [-> | ->]; simpl; lia. }
  split; [exact Hpl|]. split; [exact Htotal|]. split.
  { intros [p1 e1] Hst. cbn [fst snd] in *.
    destruct (static_total _ _ Hst) as (Ht & Hm & Hp).
    change (method (Pyllow_init a)) with (arg_method a) in Hm. split.
    - unfold run_iteration. unfold bind at 1, read_self at 1. cbn beta iota.
      cbn [fst snd]. by rewrite Hm, Hp, Hpl, Hpost.
    - destruct (dispatch_outcome ∅ p1 e1)
        as (r & p2 & e2 & evs & Hd & _ & _ & Htr & Hpr & _); [lia|].
      exists (build_request ∅ (authorized p1)), evs.
      rewrite Hd. cbn [fst snd]. split; [exact Htr|]. split.
      + unfold build_request, authorized. simpl.
        destruct (token p1) as [tok|]; [|by rewrite Hm, Hpost].
        destruct (truthy_str (access_token tok)); simpl; by rewrite Hm, Hpost.
      + by rewrite Hpr, Ht, Htotal. }
  split; [apply run_loop_init_returns|].
  intros Hret.
  destruct (run_loop_init_spec a e HL Hret)
    as (p' & e' & evs & Hr & Hs & Hc & Ht & Hd).
  rewrite Hr. simpl.
  exists evs. split; [done|].
  unfold schedule in Hd. rewrite Hpl in Hd. simpl in Hd.
  rewrite Hpost in Hd. simpl in Hd.
  assert (Hflat : forall n, concat (replicate n [(∅ : pydict)]) = replicate n ∅).
  { induction n as [|n IH]; [done|]. simpl. by rewrite IH. }
  rewrite Hflat in Hd.
  destruct Hps as [Hn | Hn]; rewrite Hn in Hd; simpl in Hd;
    by rewrite Z.mul_1_l in Hd.
Qed.

(** ** The retry after a 401 *)

(** A refresh that returns has sent its one request and logged nothing. *)
Lemma refresh_returns_inv headers (t : Token) (e : Env W) v t' e' :
  refresh_access_token headers (t, e) = (Return v, (t', e')) ->
  trace e' = (trace e ++ [Sent (refresh_request headers t)])%list /\
  exists resp data,
    fst (requests_request (refresh_request headers t) (world e)) = Return resp /\
    status_code resp = 200 /\ json resp = Some data /\
    t' = refreshed data t /\ v = access_token t'.
Proof.
  intros Hr.
  destruct (requests_request (refresh_request headers t) (world e))
    as [[resp|ex] w'] eqn:Hw.
  - destruct (Z.eq_dec (status_code resp) 200) as [Hs|Hs].
    + destruct (json resp) as [data|] eqn:Hj.
      * rewrite (refresh_200_parsed _ _ _ _ _ _ Hw Hs Hj) in Hr.
        injection Hr as <- <- <-. split; [done|].
        exists resp, data. repeat split; try done.
        unfold refreshed.
        destruct (_extract_value data (refresh_token_path t)) as [new|]; [|done].
        by destruct (truthy_str (Some new)).
      * by rewrite (refresh_200_unparsed _ _ _ _ _ Hw Hs Hj) in Hr.
    + by rewrite (refresh_status_not_200 _ _ _ _ _ Hw Hs) in Hr.
  - by rewrite (refresh_transport_raises _ _ _ _ _ Hw) in Hr.
Qed.

(** A refresh that raises has sent its one request, and logged. *)
Lemma refresh_raises_inv headers (t : Token) (e : Env W) ex t' e' :
  refresh_access_token headers (t, e) = (Raise ex, (t', e')) ->
  t' = t /\
  sent_of (trace e') = (sent_of (trace e) ++ [refresh_request headers t])%list.
Proof.
  intros Hr. unfold sent_of.
  destruct (requests_request (refresh_request headers t) (world e))
    as [[resp|ex'] w'] eqn:Hw.
  - destruct (Z.eq_dec (status_code resp) 200) as [Hs|Hs].
    + destruct (json resp) as [data|] eqn:Hj.
      * by rewrite (refresh_200_parsed _ _ _ _ _ _ Hw Hs Hj) in Hr.
      * rewrite (refresh_200_unparsed _ _ _ _ _ Hw Hs Hj) in Hr.
        injection Hr as <- <- <-. simpl. by rewrite omap_app.
    + rewrite (refresh_status_not_200 _ _ _ _ _ Hw Hs) in Hr.
      injection Hr as <- <- <-. simpl. by rewrite omap_app.
  - rewrite (refresh_transport_raises _ _ _ _ _ Hw) in Hr.
    injection Hr as <- <- <-. simpl. rewrite !omap_app.
    by destruct (is_RequestException ex').
Qed.

(** C1, as amended: when the first response of a dispatch has status 401
    and a token is present, the token is refreshed.  When the refresh
    succeeds, the dispatch sends exactly one more request, the first one
    again with the Authorization header set from the refreshed token;
    whatever this retry brings, nothing is sent after it, and when it brings
    a response, that response is the one processed, whatever its status,
    another 401 included.  When the refresh fails, no retry is sent and no
    response is processed. *)
Theorem retry_once_after_refresh payload (p : Pyllow) (e : Env W) tok r1 w1 :
  token p = Some tok ->
  let p1 := authorized p in
  let req1 := build_request payload p1 in
  requests_request req1 (world e) = (Return r1, w1) ->
  status_code r1 = 401 ->
  let treq := refresh_request (headers p1) tok in
  let refreshing :=
    refresh_access_token (headers p1) (tok, MkEnv w1 (trace e ++ [Sent req1])) in
  let out := _make_request payload (p, e) in
  match fst refreshing with
  | Return _ =>
      let tok' := fst (snd refreshing) in
      let e2 := snd (snd refreshing) in
      let p2 := reauthorized tok' p1 in
      let req2 := build_request payload p2 in
      req2 = MkRequest (req_method req1) (req_url req1)
               (<["Authorization" :=
                    "Bearer " ++ format_opt_str (access_token tok')]>
                  (req_headers req1))
               (req_data req1) (req_params req1) (req_verify req1) /\
      trace e2 = (trace e ++ [Sent req1; Sent treq])%list /\
      sent_of (trace (snd (snd out))) =
        (sent_of (trace e) ++ [req1; treq; req2])%list /\
      forall r2 w3,
        requests_request req2 (world e2) = (Return r2, w3) ->
        out = _process_response r2 (p2, MkEnv w3 (trace e2 ++ [Sent req2]))
  | Raise _ =>
      sent_of (trace (snd (snd out))) = (sent_of (trace e) ++ [req1; treq])%list /\
      results (fst (snd out)) = results p /\
      condition_results (fst (snd out)) = condition_results p
  end.
Proof.
  intros Htok p1 req1 Hw1 Hs1 treq refreshing out.
  assert (Htok1 : token p1 = Some tok).
  { unfold p1, authorized. rewrite Htok.
    by destruct (truthy_str (access_token tok)); destruct p. }
  assert (Hkeep : results p1 = results p /\
                  condition_results p1 = condition_results p).
  { unfold p1, authorized. destruct (token p) as [t0|]; [|done].
    by destruct (truthy_str (access_token t0)); destruct p. }
  destruct refreshing as [outcome [tok' e2]] eqn:Href. subst refreshing.
  assert (Hbody : _make_request_body payload (p, e) =
    match outcome with
    | Return _ =>
        bind (send_request payload) _process_response (reauthorized tok' p1, e2)
    | Raise ex => (Raise ex, (set_token (Some tok') p1, e2))
    end).
  { rewrite _make_request_body_eq. fold p1. unfold bind at 1.
    rewrite (send_request_returns _ _ _ _ _ Hw1). fold req1.
    unfold bind at 1, read_self at 1. cbn beta iota. cbn [fst snd].
    rewrite Hs1, Htok1. simpl andb. cbn beta iota.
    unfold bind at 1. unfold bind at 1. unfold call_token at 1.
    cbn [fst snd]. rewrite Htok1, Href. cbn [fst snd]. cbn beta iota.
    destruct outcome as [v|ex]; [|done].
    unfold bind at 1.
    rewrite (set_authorization_eq _ _ tok') by (by destruct p1).
    reflexivity. }
  subst out. unfold _make_request, try_except. rewrite Hbody.
  destruct outcome as [v|ex]; cbn [fst snd].
  - destruct (refresh_returns_inv _ _ _ _ _ _ Href) as [Ht2 _].
    simpl in Ht2. rewrite <- app_assoc in Ht2. simpl in Ht2.
    set (p2 := reauthorized tok' p1). set (req2 := build_request payload p2).
    split; [done|]. split; [exact Ht2|]. unfold bind.
    destruct (requests_request req2 (world e2)) as [[r2|ex] w3] eqn:Hw2.
    + rewrite (send_request_returns _ _ _ _ _ Hw2). fold req2.
      assert (Hp : exists p3,
        _process_response r2 (p2, MkEnv w3 (trace e2 ++ [Sent req2])) =
        (Return tt, (p3, MkEnv w3 (trace e2 ++ [Sent req2])))).
      { unfold _process_response, bind, read_self, update_self, modify, ret.
        simpl. destruct (save_output p1); eauto. }
      destruct Hp as [p3 Hp]. split.
      * rewrite Hp. simpl. rewrite Ht2. unfold sent_of.
        rewrite !omap_app. simpl. by rewrite <- app_assoc.
      * intros r2' w3' [= <- <-]. by rewrite Hp.
    + rewrite (send_request_raises _ _ _ _ _ Hw2). fold req2. split; [|done].
      simpl. rewrite Ht2. unfold sent_of, request_failed_log, in_env.
      simpl. rewrite !omap_app. simpl.
      destruct (is_RequestException ex); simpl;
        by rewrite app_nil_r, <- app_assoc.
  - destruct (refresh_raises_inv _ _ _ _ _ _ Href) as [-> Hsent].
    simpl in Hsent. unfold in_env, logging_error, emit, modify. simpl.
    split; [|by destruct Hkeep, p1].
    unfold sent_of in *. rewrite omap_app, Hsent, omap_app. simpl.
    by rewrite app_nil_r, <- app_assoc.
Qed.

End Frames.

(** ** The claims on concrete runs *)

(** The scripted platform sleeps half a second, and does not sleep ten
    billion seconds. *)
Lemma scripted_pause_half_a_second :
  pause_returns (W:=list (result Response)) half_a_second.
Proof. intros _ w. reflexivity. Defined.

Lemma scripted_pause_none : pause_returns (W:=list (result Response)) 0%Qc.
Proof. intros Hlt. discriminate Hlt. Defined.

(** POST with three payloads, another method, and POST without payloads. *)
Lemma total_requests_fixed_witness :
  let three := Some [payload_x 1; payload_x 2; payload_x 3] in
  let post := Pyllow_init (example_args "post" three None 5) in
  let get := Pyllow_init (example_args "get" three None 5) in
  let bare := Pyllow_init (example_args "POST" None None 5) in
  total_requests post = 15 /\
  total_requests (fst (snd (run (post, script [])))) = 15 /\
  total_requests get = 5 /\
  total_requests bare = 5.
Proof.
  intros three post get bare.
  destruct (total_requests_fixed (Platform0:=scripted) (Str0:=ascii_str)
              (example_args "post" three None 5)
              5 3 (script []) ltac:(lia) ltac:(reflexivity) ltac:(reflexivity))
    as (Hpost & _ & _ & Hrun).
  destruct (total_requests_fixed (Platform0:=scripted) (Str0:=ascii_str)
              (example_args "get" three None 5)
              5 3 (script []) ltac:(lia) ltac:(reflexivity) ltac:(reflexivity))
    as (_ & Hget & _ & _).
  destruct (total_requests_fixed (Platform0:=scripted) (Str0:=ascii_str)
              (example_args "POST" None None 5)
              5 0 (script []) ltac:(lia) ltac:(reflexivity) ltac:(reflexivity))
    as (Hbare & _ & _ & _).
  split; [exact (Hpost ltac:(reflexivity))|].
  split; [exact (eq_trans Hrun (Hpost ltac:(reflexivity)))|].
  split; [apply Hget; vm_compute; discriminate|].
  exact (Hbare ltac:(reflexivity)).
Defined.

(** C5, as stated, fails: a POST orchestrator built with three loops and an
    empty list of payloads has a total of 3, not 3 * 0. *)
Lemma empty_payload_list_counts_once :
  let a := example_args "POST" (Some []) None 3 in
  upper (arg_method a) = "POST" /\
  arg_loops a = 3 /\
  arg_payloads a = Some [] /\
  total_requests (Pyllow_init a) = 3 /\
  total_requests (Pyllow_init a) <> arg_loops a * Z.of_nat (length (@nil pydict)).
Proof. vm_compute. repeat split; discriminate. Qed.

(** Half a second between the dispatches, every request refused. *)
Lemma post_run_dispatches_in_order_witness :
  let a := pausing half_a_second
             (example_args "post" (Some [payload_x 1; payload_x 2]) None 2) in
  let out := run_loop (Pyllow_init a, script []) in
  total_requests (Pyllow_init a) = 4 /\
  fst out = Return tt /\
  completed_requests (fst (snd out)) = 4 /\
  out = (dispatch (payload_x 1) >> dispatch (payload_x 2) >>
         dispatch (payload_x 1) >> dispatch (payload_x 2) >> ret tt)
          (Pyllow_init a, script []).
Proof.
  intros a out.
  destruct (post_run_dispatches_in_order (Platform0:=scripted) (Str0:=ascii_str)
              a (script []) ltac:(reflexivity))
    as (_ & _ & Hret & Hloop & _ & Htwo).
  specialize (Hret scripted_pause_half_a_second).
  destruct (Hloop Hret) as (Hdone & _ & _).
  destruct (Htwo (payload_x 1) (payload_x 2) ltac:(reflexivity) ltac:(reflexivity))
    as (Htotal & Horder & Hout).
  split; [exact Htotal|]. split; [exact Hret|].
  split; [|exact Hout].
  rewrite Horder in Hdone. exact Hdone.
Defined.

(** C6, as stated, fails: with a [sleep_time] of ten billion seconds the
    first [time.sleep] raises OverflowError, outside every [try]; the run
    ends there, after one dispatch out of four. *)
Lemma long_pause_ends_post_run :
  let a := pausing ten_billion_seconds
             (example_args "POST" (Some [payload_x 1; payload_x 2]) None 2) in
  let out := run (Pyllow_init a, script []) in
  total_requests (Pyllow_init a) = 4 /\
  fst out = Raise sleep_too_long /\
  completed_requests (fst (snd out)) = 1 /\
  map req_data (sent_of (trace (snd (snd out)))) = [Some (payload_x 1)].
Proof. vm_compute. repeat split; reflexivity. Qed.

(** Every request of the run is refused. *)
Lemma dispatch_failures_are_swallowed_witness :
  let a := pausing half_a_second (example_args "GET" None None 3) in
  let out := run_loop (Pyllow_init a, script []) in
  fst out = Return tt /\
  completed_requests (fst (snd out)) = total_requests (fst (snd out)).
Proof.
  intros a out.
  destruct (dispatch_failures_are_swallowed (Platform0:=scripted)
              (Str0:=ascii_str) a (script []) ltac:(simpl; lia))
    as (_ & _ & _ & _ & Hret & Hloop).
  specialize (Hret scripted_pause_half_a_second).
  destruct (Hloop Hret) as (Hdone & _).
  split; [exact Hret | exact Hdone].
Defined.

(** C9, as stated, fails: every request is refused and swallowed, but with
    a [sleep_time] of ten billion seconds [time.sleep] raises after the
    first dispatch; the loop ends there, at 1 of 3. *)
Lemma long_pause_ends_failing_run :
  let a := pausing ten_billion_seconds (example_args "GET" None None 3) in
  let out := run_loop (Pyllow_init a, script []) in
  fst out = Raise sleep_too_long /\
  fst (run (Pyllow_init a, script [])) = Raise sleep_too_long /\
  completed_requests (fst (snd out)) = 1 /\
  total_requests (fst (snd out)) = 3 /\
  progress_of (trace (snd (snd out))) = [(1, 3)].
Proof. vm_compute. repeat split; reflexivity. Qed.

Lemma payloads_never_empty_witness :
  let a := pausing half_a_second (example_args "POST" None None 2) in
  let p := Pyllow_init a in
  payloads p = [∅] /\ total_requests p = 2 /\
  fst (run_loop (p, script [])) = Return tt.
Proof.
  intros a p.
  destruct (payloads_never_empty (Platform0:=scripted) (Str0:=ascii_str)
              a (script []) ltac:(simpl; lia))
    as (_ & _ & _ & _ & Hbare).
  destruct (Hbare ltac:(reflexivity) ltac:(left; reflexivity))
    as (Hone & Htotal & _ & Hret & _).
  split; [exact Hone|]. split; [exact Htotal|].
  exact (Hret scripted_pause_half_a_second).
Defined.

(** C10, as stated, fails: a POST run without payloads and with two loops,
    its [sleep_time] ten billion seconds, dispatches its empty payload once
    and ends when [time.sleep] raises; the second loop never runs. *)
Lemma long_pause_ends_bare_post_run :
  let a := pausing ten_billion_seconds (example_args "POST" None None 2) in
  let out := run (Pyllow_init a, script []) in
  loops (Pyllow_init a) = 2 /\
  payloads (Pyllow_init a) = [∅] /\
  fst out = Raise sleep_too_long /\
  map req_data (sent_of (trace (snd (snd out)))) = [Some ∅].
Proof. vm_compute. repeat split; reflexivity. Qed.

(** *** A 401, a refresh, a retry *)

Lemma retry_once_after_refresh_witness :
  let out := _make_request ∅
               (guarded, script [Return denied; Return fresh_tokens;
                                 Return denied_again]) in
  length (sent_of (trace (snd (snd out)))) = 3%nat /\
  results (fst (snd out)) = ["denied again"].
Proof.
  pose proof (retry_once_after_refresh ∅ guarded
                (script [Return denied; Return fresh_tokens; Return denied_again])
                held_token denied [Return fresh_tokens; Return denied_again]
                ltac:(reflexivity) ltac:(reflexivity) ltac:(reflexivity)) as H.
  cbv zeta in H.
  set (refreshing := refresh_access_token _ _) in H.
  assert (Hfst : fst refreshing = Return (Some "new-access"))
    by (vm_compute; reflexivity).
  rewrite Hfst in H. destruct H as (_ & _ & Hsent & Hprocessed).
  split.
  - rewrite Hsent. reflexivity.
  - rewrite (Hprocessed denied_again [] ltac:(vm_compute; reflexivity)).
    vm_compute. reflexivity.
Defined.

(** C1, as stated, fails: the first response is a 401 and a token is
    present, but the token endpoint answers 500; the refresh raises, the
    two requests sent are the first one and the refresh, no retry follows
    and no response is processed. *)
Lemma no_retry_when_refresh_fails :
  let e := script [Return denied; Return (MkResponse 500 "down" None);
                   Return (MkResponse 200 "never asked for" None)] in
  let out := _make_request ∅ (guarded, e) in
  token guarded = Some held_token /\
  fst (requests_request (build_request ∅ (authorized guarded)) (world e)) =
    Return denied /\
  status_code denied = 401 /\
  sent_of (trace (snd (snd out))) =
    [build_request ∅ (authorized guarded);
     refresh_request (headers (authorized guarded)) held_token] /\
  results (fst (snd out)) = [] /\
  world (snd (snd out)) = [Return (MkResponse 200 "never asked for" None)].
Proof. vm_compute. repeat split; reflexivity. Qed.

(** * The rest of the code *)

(** ** Growing traces and relations on the object *)

#[global] Instance appends_preorder (P : event -> Prop) : PreOrder (appends P).
Proof.
  split.
  - intros t. exists []. by rewrite app_nil_r.
  - intros t1 t2 t3 [evs1 [-> H1]] [evs2 [-> H2]].
    exists (evs1 ++ evs2)%list. rewrite app_assoc. split; [done|].
    by apply Forall_app.
Qed.

#[global] Instance env_appends_preorder {W} (P : event -> Prop) :
  PreOrder (env_appends (W:=W) P).
Proof.
  split.
  - intros e. unfold env_appends. reflexivity.
  - intros e1 e2 e3 H12 H23. unfold env_appends in *. by etransitivity.
Qed.

#[global] Instance on_trace_preorder {X W} (P : event -> Prop) :
  PreOrder (on_trace (X:=X) (W:=W) P).
Proof.
  split.
  - intros s. unfold on_trace. reflexivity.
  - intros s1 s2 s3 H12 H23. unfold on_trace in *. by etransitivity.
Qed.

#[global] Instance kept_preorder {X B} (f : X -> B) : PreOrder (kept f).
Proof.
  split.
  - by intros x.
  - intros x1 x2 x3 H12 H23. unfold kept in *. congruence.
Qed.

#[global] Instance on_self_preorder {X E} (R : relation X) `{!PreOrder R} :
  PreOrder (on_self (E:=E) R).
Proof.
  split.
  - intros s. unfold on_self. reflexivity.
  - intros s1 s2 s3 H12 H23. unfold on_self in *. by etransitivity.
Qed.

Lemma appends_weaken (P Q : event -> Prop) t t' :
  (forall ev, P ev -> Q ev) -> appends P t t' -> appends Q t t'.
Proof.
  intros HPQ [evs [-> Hevs]]. exists evs. split; [done|].
  eapply Forall_impl; eauto.
Qed.

Lemma appends_sent_of t t' :
  appends not_sent t t' ->
  sent_of t' = sent_of t /\ progress_of t' = progress_of t.
Proof.
  intros [evs [-> Hevs]]. unfold sent_of, progress_of. rewrite !omap_app.
  assert (Hnil :
    omap (fun ev => match ev with Sent r => Some r | _ => None end) evs = [] /\
    omap (fun ev => match ev with LogProgress c t => Some (c, t) | _ => None end)
      evs = []).
  { induction Hevs as [|ev evs Hev _ [IH1 IH2]]; [done|].
    destruct ev; simpl in *; done. }
  destruct Hnil as [-> ->]. by rewrite !app_nil_r.
Qed.

Section MoreFrames.
Context {W : Type} `{!Platform W} {Str0 : Str}.

Lemma stable_emit_appends (P : event -> Prop) (ev : event) :
  P ev -> stable (env_appends (W:=W) P) (emit ev).
Proof. intros Hev e. exists [ev]. split; [done|]. by constructor. Qed.

Lemma stable_platform_appends {A} (P : event -> Prop) (f : W -> result A * W) :
  stable (env_appends (W:=W) P)
    (fun e => let '(res, w') := f (world e) in (res, MkEnv w' (trace e))).
Proof.
  intros e. destruct (f (world e)) as [res w']. simpl.
  unfold env_appends. reflexivity.
Qed.

Lemma stable_open_mode_appends (P : event -> Prop) append path :
  stable (env_appends (W:=W) P) (open_mode append path).
Proof. intros e. unfold env_appends. simpl. reflexivity. Qed.

Lemma stable_sleep_appends (P : event -> Prop) (t : Qc) :
  P (Slept t) -> stable (env_appends (W:=W) P) (sleep t).
Proof.
  intros Ht. unfold sleep. apply stable_bind; [typeclasses eauto| |intros _].
  - apply (stable_platform_appends P (time_sleep t)).
  - by apply stable_emit_appends.
Qed.

Lemma stable_in_env_on_trace {X A} (P : event -> Prop) (m : M (Env W) A) :
  stable (env_appends P) m -> stable (on_trace (X:=X) P) (in_env m).
Proof.
  intros Hm [x e]. unfold in_env. simpl. specialize (Hm e).
  by destruct (m e) as [r e'].
Qed.

Lemma stable_update_self_on_trace {X} (P : event -> Prop) (f : X -> X) :
  stable (on_trace (W:=W) P) (update_self f).
Proof. intros [x e]. unfold on_trace. simpl. reflexivity. Qed.

Lemma stable_read_self_on_trace {X} (P : event -> Prop) :
  stable (on_trace (X:=X) (W:=W) P) read_self.
Proof. intros [x e]. unfold on_trace. simpl. reflexivity. Qed.

Lemma stable_call_token_on_trace {A} (P : event -> Prop)
    (m : M (Token * Env W) A) :
  stable (on_trace P) m -> stable (on_trace P) (call_token m).
Proof.
  intros Hm [p e]. unfold call_token. simpl.
  destruct (token p) as [t|].
  - specialize (Hm (t, e)). by destruct (m (t, e)) as [r [t' e']].
  - unfold on_trace. simpl. reflexivity.
Qed.

Lemma stable_in_env_on_self {X A} (R : relation X) `{!Reflexive R}
    (m : M (Env W) A) :
  stable (on_self R) (in_env m).
Proof.
  intros [x e]. unfold in_env, on_self. simpl.
  destruct (m e). simpl. reflexivity.
Qed.

Lemma stable_read_self_on_self {X} (R : relation X) `{!Reflexive R} :
  stable (on_self (E:=Env W) R) read_self.
Proof. intros [x e]. unfold on_self. simpl. reflexivity. Qed.

Lemma stable_update_self_on_self {X} (R : relation X) (g : X -> X) :
  (forall x, R x (g x)) -> stable (on_self (E:=Env W) R) (update_self g).
Proof. intros Hg [x e]. unfold on_self. simpl. apply Hg. Qed.

Lemma stable_call_token_on_self {A} (R : relation Pyllow) `{!Reflexive R}
    (Rt : relation Token) (m : M (Token * Env W) A) :
  stable (on_self Rt) m ->
  (forall p t t', token p = Some t -> Rt t t' -> R p (set_token (Some t') p)) ->
  stable (on_self R) (call_token m).
Proof.
  intros Hm HR [p e]. unfold call_token, on_self. simpl.
  destruct (token p) as [t|] eqn:Ht; [|simpl; reflexivity].
  specialize (Hm (t, e)). destruct (m (t, e)) as [r [t' e']]. simpl in *.
  by apply HR with t.
Qed.

Lemma stable_make_request_appends (P : event -> Prop)
    method url headers data params verify :
  (forall r, P (Sent r)) -> (forall msg, P (LogError msg)) ->
  stable (env_appends (W:=W) P) (make_request method url headers data params verify).
Proof.
  intros Hs Hl. unfold make_request, http_call, logging_error.
  stable_go; first [apply stable_emit_appends; auto | apply stable_platform_appends].
Qed.

Lemma stable_refresh_appends (P : event -> Prop) headers :
  (forall r, P (Sent r)) -> (forall msg, P (LogError msg)) ->
  stable (on_trace P) (refresh_access_token (W:=W) headers).
Proof.
  intros Hs Hl. unfold refresh_access_token, response_json, logging_error.
  stable_go;
    repeat first
      [ apply stable_in_env_on_trace
      | apply stable_update_self_on_trace
      | apply stable_read_self_on_trace
      | apply stable_make_request_appends; assumption
      | apply stable_emit_appends; auto ].
Qed.

(** A dispatch only sends requests and logs errors. *)
Lemma stable__make_request_appends (P : event -> Prop) payload :
  (forall r, P (Sent r)) -> (forall msg, P (LogError msg)) ->
  stable (on_trace P) (_make_request (W:=W) payload).
Proof.
  intros Hs Hl.
  unfold _make_request, _make_request_body, send_request, set_authorization,
    _process_response, logging_error.
  stable_go;
    repeat first
      [ apply stable_in_env_on_trace
      | apply stable_update_self_on_trace
      | apply stable_read_self_on_trace
      | apply stable_call_token_on_trace
      | apply stable_refresh_appends; assumption
      | apply stable_make_request_appends; assumption
      | apply stable_emit_appends; auto ].
Qed.

End MoreFrames.

(** ** The token manager, beyond the claims *)

Section MoreToken.
Context {W : Type} `{!Platform W} {Str0 : Str}.

(** Whatever comes of it, a refresh sends its one request. *)
Lemma refresh_sent headers (t : Token) (e : Env W) :
  sent_of (trace (snd (snd (refresh_access_token headers (t, e))))) =
    (sent_of (trace e) ++ [refresh_request headers t])%list.
Proof.
  destruct (refresh_access_token headers (t, e)) as [[v|ex] [t' e']] eqn:Hr.
  - destruct (refresh_returns_inv _ _ _ _ _ _ Hr) as [Ht _]. simpl.
    rewrite Ht. unfold sent_of. by rewrite omap_app.
  - by destruct (refresh_raises_inv _ _ _ _ _ _ Hr) as [_ Hs].
Qed.

Lemma refresh_payload_lookup (t : Token) :
  refresh_payload t !! "grant_type" = Some (PStr "refresh_token") /\
  refresh_payload t !! "refresh_token" = Some (PStr (refresh_token t)) /\
  refresh_payload t !! "client_id" = Some (PStr (client_id t)) /\
  refresh_payload t !! "client_secret" = Some (PStr (client_secret t)) /\
  dom (refresh_payload t) = grant_keys.
Proof.
  unfold refresh_payload, grant_keys.
  split; [by rewrite !lookup_insert_ne, lookup_insert_eq by done|].
  split; [by rewrite !lookup_insert_ne, lookup_insert_eq by done|].
  split; [by rewrite lookup_insert_ne, lookup_insert_eq by done|].
  split; [by rewrite lookup_insert_eq|].
  rewrite !dom_insert_L, dom_empty_L. set_solver.
Qed.

(** X1: a refresh, whatever its outcome, sends exactly one request: a POST to
    the token endpoint with the caller's headers, certificate verification
    on and no query parameters, whose body holds the four fields of the
    refresh-token grant and nothing else. *)
Theorem refresh_sends_one_grant headers (t : Token) (e : Env W) :
  exists d,
    sent_of (trace (snd (snd (refresh_access_token headers (t, e))))) =
      (sent_of (trace e) ++
       [MkRequest "POST" (token_endpoint t) headers (Some d) None true])%list /\
    d !! "grant_type" = Some (PStr "refresh_token") /\
    d !! "refresh_token" = Some (PStr (refresh_token t)) /\
    d !! "client_id" = Some (PStr (client_id t)) /\
    d !! "client_secret" = Some (PStr (client_secret t)) /\
    dom d = grant_keys.
Proof.
  exists (refresh_payload t). split; [apply refresh_sent|].
  apply refresh_payload_lookup.
Qed.

Lemma refreshed_fields (data : pyval) (t : Token) :
  credentials (refreshed data t) = credentials t /\
  refresh_token (refreshed data t) = rotated data t.
Proof.
  unfold refreshed, rotated.
  destruct (_extract_value data (refresh_token_path t)) as [new|]; [|done].
  simpl. by destruct (String.eqb new EmptyString).
Qed.

(** X2: two refreshes in a row: after a 200 response with a parsed document,
    the next refresh offers the refresh token that response carried when it
    carried a non-empty one, and the previous one otherwise, with the same
    client id and secret, to the same endpoint. *)
Theorem refresh_rotation headers headers' (t : Token) (e : Env W) resp data :
  fst (requests_request (refresh_request headers t) (world e)) = Return resp ->
  status_code resp = 200 ->
  json resp = Some data ->
  let s1 := snd (refresh_access_token headers (t, e)) in
  exists d,
    sent_of (trace (snd (snd (refresh_access_token headers' s1)))) =
      (sent_of (trace e) ++
       [refresh_request headers t;
        MkRequest "POST" (token_endpoint t) headers' (Some d) None true])%list /\
    d !! "refresh_token" = Some (PStr (rotated data t)) /\
    d !! "client_id" = Some (PStr (client_id t)) /\
    d !! "client_secret" = Some (PStr (client_secret t)).
Proof.
  intros Hresp Hs Hj s1. subst s1.
  destruct (requests_request (refresh_request headers t) (world e))
    as [outcome w'] eqn:Hw.
  simpl in Hresp. subst outcome.
  rewrite (refresh_200_parsed _ _ _ _ _ _ Hw Hs Hj). cbn [snd].
  destruct (refreshed_fields data t) as [Hc Hr].
  assert (Hcred : token_endpoint (refreshed data t) = token_endpoint t /\
                  client_id (refreshed data t) = client_id t /\
                  client_secret (refreshed data t) = client_secret t).
  { unfold credentials in Hc. by injection Hc as -> -> -> _ _. }
  destruct Hcred as (Hep & Hid & Hsec).
  exists (refresh_payload (refreshed data t)).
  rewrite refresh_sent. cbn [trace]. unfold sent_of at 1.
  rewrite omap_app. cbn [omap]. fold (sent_of (trace e)).
  destruct (refresh_payload_lookup (refreshed data t)) as (_ & H2 & H3 & H4 & _).
  rewrite Hr in H2. rewrite Hid in H3. rewrite Hsec in H4.
  split; [|done].
  unfold refresh_request at 2. rewrite Hep. by rewrite <- app_assoc.
Qed.

Lemma stable_refresh_credentials headers :
  stable (on_self (kept credentials)) (refresh_access_token (W:=W) headers).
Proof.
  unfold refresh_access_token, response_json.
  stable_go;
    first [ apply stable_in_env_on_self; typeclasses eauto
          | apply stable_read_self_on_self; typeclasses eauto
          | apply stable_update_self_on_self; by intros [] ].
Qed.

End MoreToken.

(** ** Nested extraction, beyond the claims *)

(** X3: extraction along a path in two parts is extraction along the second
    part from the value the first part leads to. *)
Theorem extract_value_app (data mid : pyval) (p q : list string) :
  follows data p mid ->
  _extract_value data (p ++ q) = _extract_value mid q.
Proof.
  induction 1 as [v|d key rest x v Hk _ IH]; [done|].
  simpl. unfold dict_get. rewrite Hk. simpl. exact IH.
Qed.

(** X4: round trip: from the document that nests a string under the keys of a
    path, extraction along that path gives the string back; along a path cut
    short it gives no value unless nothing was cut. *)
Theorem extract_value_nest (path : list string) (s : string) :
  _extract_value (nest path s) path = Some s /\
  (forall n, (n < length path)%nat ->
     _extract_value (nest path s) (take n path) = None).
Proof.
  split.
  - induction path as [|key rest IH]; [done|].
    simpl. unfold dict_get. by rewrite lookup_singleton_eq.
  - induction path as [|key rest IH]; intros n Hn; simpl in Hn; [lia|].
    destruct n as [|n]; [done|].
    simpl. unfold dict_get. rewrite lookup_singleton_eq. simpl.
    apply IH. lia.
Qed.

(** ** One dispatch, beyond the claims *)

Section MoreDispatch.
Context {W : Type} `{!Platform W} {Str0 : Str}.

Lemma _process_response_eq (r : Response) (p : Pyllow) (e : Env W) :
  _process_response r (p, e) =
    (Return tt,
     (set_condition_results
        (map (process_condition_result r) (condition_results p))
        (if save_output p then set_results (results p ++ [text r]) p else p),
      e)).
Proof.
  unfold _process_response, bind, read_self, update_self, modify, ret. simpl.
  destruct (save_output p); simpl; reflexivity.
Qed.

Lemma token_processed (c : list ConditionResult) (b : bool)
    (r : list string) (p : Pyllow) :
  token (set_condition_results c (if b then set_results r p else p)) = token p.
Proof. by destruct b, p. Qed.

(** The body of a dispatch whose first request brings a response that is
    not followed by a refresh. *)
Lemma _make_request_body_plain payload (p : Pyllow) (e : Env W) r1 w1 :
  requests_request (build_request payload (authorized p)) (world e)
    = (Return r1, w1) ->
  status_code r1 <> 401 \/ token p = None ->
  _make_request_body payload (p, e) =
    _process_response r1
      (authorized p,
       MkEnv w1 (trace e ++ [Sent (build_request payload (authorized p))])).
Proof.
  intros Hw Hplain. rewrite _make_request_body_eq. unfold bind at 1.
  rewrite (send_request_returns payload (authorized p) e r1 w1 Hw).
  unfold bind at 1, read_self at 1. cbn beta iota. cbn [fst snd].
  assert (Hno : (status_code r1 =? 401)%Z
                && bool_decide (is_Some (token (authorized p))) = false).
  { destruct Hplain as [Hs|Ht].
    - destruct (Z.eqb_spec (status_code r1) 401); [done|done].
    - assert (Ht' : token (authorized p) = None).
      { unfold authorized. by rewrite Ht. }
      rewrite Ht'. rewrite andb_false_iff. right.
      apply bool_decide_eq_false. by intros [x Hx]. }
  rewrite Hno. unfold bind at 1, ret. reflexivity.
Qed.

(** The body of a dispatch whose first response is a 401, with a token. *)
Lemma _make_request_body_401 payload (p : Pyllow) (e : Env W) tok r1 w1 :
  token p = Some tok ->
  requests_request (build_request payload (authorized p)) (world e)
    = (Return r1, w1) ->
  status_code r1 = 401 ->
  let p1 := authorized p in
  let refreshing :=
    refresh_access_token (headers p1)
      (tok, MkEnv w1 (trace e ++ [Sent (build_request payload p1)])) in
  _make_request_body payload (p, e) =
    match fst refreshing with
    | Return _ =>
        bind (send_request payload) _process_response
          (reauthorized (fst (snd refreshing)) p1, snd (snd refreshing))
    | Raise ex =>
        (Raise ex, (set_token (Some (fst (snd refreshing))) p1,
                    snd (snd refreshing)))
    end.
Proof.
  intros Htok Hw1 Hs1 p1 refreshing.
  assert (Htok1 : token p1 = Some tok).
  { unfold p1, authorized. rewrite Htok.
    by destruct (truthy_str (access_token tok)); destruct p. }
  destruct refreshing as [outcome [tok' e2]] eqn:Href. subst refreshing.
  rewrite _make_request_body_eq. fold p1. unfold bind at 1.
  rewrite (send_request_returns payload p1 e r1 w1 Hw1).
  unfold bind at 1, read_self at 1. cbn beta iota. cbn [fst snd].
  rewrite Hs1, Htok1. simpl andb. cbn beta iota.
  unfold bind at 1. unfold bind at 1. unfold call_token at 1.
  cbn [fst snd]. rewrite Htok1, Href. cbn [fst snd]. cbn beta iota.
  destruct outcome as [v|ex]; [|done].
  unfold bind at 1.
  rewrite (set_authorization_eq _ _ tok') by (by destruct p1).
  reflexivity.
Qed.

(** X5: a dispatch whose first response is not a 401, or that has no token,
    sends that one request and processes its response: no refresh, no
    retry, a 401 without a token included. *)
Theorem dispatch_without_retry payload (p : Pyllow) (e : Env W) r1 w1 :
  requests_request (build_request payload (authorized p)) (world e)
    = (Return r1, w1) ->
  status_code r1 <> 401 \/ token p = None ->
  _make_request payload (p, e) =
    _process_response r1
      (authorized p,
       MkEnv w1 (trace e ++ [Sent (build_request payload (authorized p))])).
Proof.
  intros Hw Hplain. unfold _make_request, try_except.
  rewrite (_make_request_body_plain _ _ _ _ _ Hw Hplain).
  by rewrite _process_response_eq.
Qed.

(** X6: a dispatch whose first request fails in the transport sends nothing
    else and processes nothing: the object is as the Authorization step left
    it, and the trace gains the request, the line of [make_request] when the
    exception is a RequestException, and the line of the dispatch. *)
Theorem dispatch_transport_failure payload (p : Pyllow) (e : Env W) ex w1 :
  requests_request (build_request payload (authorized p)) (world e)
    = (Raise ex, w1) ->
  _make_request payload (p, e) =
    (Return tt,
     (authorized p,
      MkEnv w1 (trace e ++ [Sent (build_request payload (authorized p))]
                  ++ request_failed_log ex
                  ++ [LogError ("Error during request: " ++ exn_msg ex)]))).
Proof.
  intros Hw. unfold _make_request, try_except.
  rewrite _make_request_body_eq. unfold bind at 1.
  rewrite (send_request_raises payload (authorized p) e ex w1 Hw).
  unfold in_env, logging_error, emit, modify. simpl.
  by rewrite <- !app_assoc.
Qed.

(** X7: with no token, or with a token that holds no access token yet (as a
    newly built one), the first request of a dispatch carries the headers of
    the orchestrator as they are: no Authorization header is added. *)
Theorem unauthenticated_first_request payload (p : Pyllow) (e : Env W) :
  token p = None \/
  (exists tok, token p = Some tok /\ truthy_str (access_token tok) = false) ->
  (forall endpoint secret refresh id apath rpath,
     truthy_str (access_token (Token_init endpoint secret refresh id apath rpath))
       = false) /\
  exists evs,
    trace (snd (snd (_make_request payload (p, e)))) =
      (trace e ++ Sent (build_request payload p) :: evs)%list /\
    req_headers (build_request payload p) = headers p.
Proof.
  intros Hno. split; [done|].
  assert (Hp : authorized p = p).
  { unfold authorized. destruct Hno as [->|[tok [-> ->]]]; done. }
  destruct (_make_request_first_send payload p e) as [evs [Hevs _]].
  rewrite Hp in Hevs. by exists evs.
Qed.

(** X8: when a refresh succeeds on a document that holds no string at the
    access-token path, the stored access token is [None] and the retry is
    sent with the header "Bearer None". *)
Theorem retry_with_bearer_none payload (p : Pyllow) (e : Env W)
    tok r1 w1 rr w2 data :
  token p = Some tok ->
  let p1 := authorized p in
  let req1 := build_request payload p1 in
  requests_request req1 (world e) = (Return r1, w1) ->
  status_code r1 = 401 ->
  requests_request (refresh_request (headers p1) tok) w1 = (Return rr, w2) ->
  status_code rr = 200 ->
  json rr = Some data ->
  _extract_value data (access_token_path tok) = None ->
  let out := _make_request payload (p, e) in
  exists req2,
    sent_of (trace (snd (snd out))) =
      (sent_of (trace e) ++ [req1; refresh_request (headers p1) tok; req2])%list /\
    req_headers req2 !! "Authorization" = Some "Bearer None" /\
    option_map access_token (token (fst (snd out))) = Some None.
Proof.
  intros Htok p1 req1 Hw1 Hs1 Hw2 Hs2 Hj Hx out.
  pose proof (_make_request_body_401 payload p e tok r1 w1 Htok Hw1 Hs1) as Hb.
  cbv zeta in Hb. fold p1 req1 in Hb.
  rewrite (refresh_200_parsed (headers p1) tok
             (MkEnv w1 (trace e ++ [Sent req1])) rr w2 data Hw2 Hs2 Hj) in Hb.
  cbn [fst snd] in Hb.
  set (tok' := refreshed data tok) in *.
  assert (Hacc : access_token tok' = None).
  { unfold tok', refreshed.
    destruct (_extract_value data (refresh_token_path tok)) as [new|];
      [destruct (truthy_str (Some new))|]; simpl; exact Hx. }
  set (p2 := reauthorized tok' p1) in *.
  exists (build_request payload p2).
  assert (Hhdr : req_headers (build_request payload p2) !! "Authorization"
                 = Some "Bearer None").
  { unfold p2, reauthorized. simpl. rewrite Hacc. simpl.
    by rewrite lookup_insert_eq. }
  assert (Htok2 : token p2 = Some tok') by (unfold p2; by destruct p1).
  subst out. unfold _make_request, try_except. rewrite Hb. unfold bind.
  destruct (requests_request (build_request payload p2) w2)
    as [[r2|ex] w3] eqn:Hw3.
  - rewrite (send_request_returns payload p2 (MkEnv w2 _) r2 w3 Hw3).
    rewrite _process_response_eq. cbn [fst snd trace].
    split; [|split; [exact Hhdr|]].
    + unfold sent_of. rewrite !omap_app. simpl. by rewrite <- !app_assoc.
    + rewrite token_processed, Htok2. simpl. by rewrite Hacc.
  - rewrite (send_request_raises payload p2 (MkEnv w2 _) ex w3 Hw3).
    unfold in_env, logging_error, emit, modify. cbn [fst snd trace world].
    split; [|split; [exact Hhdr|]].
    + unfold sent_of, request_failed_log. rewrite !omap_app. simpl.
      destruct (is_RequestException ex); simpl;
        by rewrite ?app_nil_r, <- !app_assoc.
    + rewrite Htok2. simpl. by rewrite Hacc.
Qed.

End MoreDispatch.

(** ** The loop and the run, beyond the claims *)

Section MoreRun.
Context {W : Type} `{!Platform W} {Str0 : Str}.

(** A dispatch in closed form, from what [_make_request] leaves. *)
Lemma dispatch_eq payload (s : Pyllow * Env W) :
  let p1 := fst (snd (_make_request payload s)) in
  let e1 := snd (snd (_make_request payload s)) in
  let c := completed_requests p1 + 1 in
  let t := sleep_time p1 in
  let logged := (trace e1 ++ [LogProgress c (total_requests p1)])%list in
  dispatch payload s =
    if (total_requests p1 =? 0)%Z
    then (Raise (MkExn ZeroDivisionError "division by zero"),
          (set_completed_requests c p1, e1))
    else
      match (0 ?= t)%Qc with
      | Lt =>
          let '(res, w') := time_sleep t (world e1) in
          (res,
           (set_completed_requests c p1,
            MkEnv w' match res with
                     | Return _ => (logged ++ [Slept t])%list
                     | Raise _ => logged
                     end))
      | _ => (Return tt, (set_completed_requests c p1, MkEnv (world e1) logged))
      end.
Proof.
  pose proof (_make_request_returns payload s) as Hr.
  unfold dispatch. unfold bind at 1.
  destruct (_make_request payload s) as [r [p1 e1]]. simpl in Hr. subst r.
  cbn [fst snd].
  unfold _log_progress, update_self, read_self, in_env, sleep, emit, modify,
    bind.
  simpl.
  destruct (total_requests p1 =? 0)%Z; [done|]. simpl.
  destruct (0 ?= sleep_time p1)%Qc; simpl; try done.
  by destruct (time_sleep (sleep_time p1) (world e1)) as [[[]|ex] w'].
Qed.

(** X9: after every dispatch, failed or not, the counter is one higher and
    one progress line is logged with it; the run then sleeps exactly when
    [sleep_time] is positive, and the dispatch ends as [time.sleep] does:
    it returns with the sleep recorded, or raises what the sleep raised;
    nothing else follows the dispatch. *)
Theorem dispatch_progress_then_sleep payload (s : Pyllow * Env W) :
  total_requests (fst s) <> 0 ->
  let p1 := fst (snd (_make_request payload s)) in
  let e1 := snd (snd (_make_request payload s)) in
  let c := completed_requests (fst s) + 1 in
  let t := sleep_time (fst s) in
  let logged := (trace e1 ++ [LogProgress c (total_requests (fst s))])%list in
  dispatch payload s =
    match (0 ?= t)%Qc with
    | Lt =>
        let '(res, w') := time_sleep t (world e1) in
        (res,
         (set_completed_requests c p1,
          MkEnv w' match res with
                   | Return _ => (logged ++ [Slept t])%list
                   | Raise _ => logged
                   end))
    | _ => (Return tt, (set_completed_requests c p1, MkEnv (world e1) logged))
    end.
Proof.
  intros Htotal p1 e1 c t logged. rewrite dispatch_eq. fold p1 e1.
  pose proof (stable__make_request_keeps payload s) as Hk.
  apply static_of_counted in Hk as [Hs Hc]. fold p1 in Hs, Hc.
  assert (Ht : total_requests p1 = total_requests (fst s)) by (by injection Hs).
  assert (Hsl : sleep_time p1 = sleep_time (fst s)) by (by injection Hs).
  cbv zeta. rewrite Ht, Hsl, Hc. fold c t logged.
  by destruct (Z.eqb_spec (total_requests (fst s)) 0).
Qed.

(** The requests of one call of [_make_request]: one, two or three. *)
Lemma _make_request_sends payload (p : Pyllow) (e : Env W) :
  exists reqs,
    sent_of (trace (snd (snd (_make_request payload (p, e))))) =
      (sent_of (trace e) ++ build_request payload (authorized p) :: reqs)%list /\
    (length reqs <= 2)%nat /\
    (forall r1,
       fst (requests_request (build_request payload (authorized p)) (world e))
         = Return r1 ->
       status_code r1 = 401 -> token p <> None -> reqs <> []) /\
    (match fst (requests_request (build_request payload (authorized p)) (world e))
     with
     | Return r1 => status_code r1 <> 401 \/ token p = None
     | Raise _ => True
     end -> reqs = []).
Proof.
  set (req1 := build_request payload (authorized p)).
  destruct (requests_request req1 (world e)) as [[r1|ex] w1] eqn:Hw1.
  - destruct (Z.eq_dec (status_code r1) 401) as [Hs|Hs];
      [destruct (token p) as [tok|] eqn:Htok|].
    + (* a 401, with a token *)
      pose proof (_make_request_body_401 payload p e tok r1 w1 Htok Hw1 Hs) as Hb.
      cbv zeta in Hb. fold req1 in Hb.
      pose proof (refresh_sent (headers (authorized p)) tok
                    (MkEnv w1 (trace e ++ [Sent req1]))) as Hsent.
      destruct (refresh_access_token (headers (authorized p))
                  (tok, MkEnv w1 (trace e ++ [Sent req1])))
        as [[v|ex] [tok' e2]] eqn:Href; cbn [fst snd] in Hb, Hsent.
      * set (p2 := reauthorized tok' (authorized p)) in *.
        exists [refresh_request (headers (authorized p)) tok;
                build_request payload p2].
        split; [|split; [simpl; lia|split; [done|]]].
        -- unfold _make_request, try_except. rewrite Hb. unfold bind.
           destruct (requests_request (build_request payload p2) (world e2))
             as [[r2|ex] w3] eqn:Hw3.
           ++ rewrite (send_request_returns payload p2 e2 r2 w3 Hw3).
              rewrite _process_response_eq. cbn [fst snd trace].
              unfold sent_of in *. rewrite omap_app, Hsent.
              cbn [trace]. rewrite omap_app. simpl.
              by rewrite <- !app_assoc.
           ++ rewrite (send_request_raises payload p2 e2 ex w3 Hw3).
              unfold in_env, logging_error, emit, modify.
              cbn [fst snd trace world].
              unfold sent_of, request_failed_log in *.
              rewrite !omap_app, Hsent. cbn [trace]. rewrite omap_app. simpl.
              destruct (is_RequestException ex); simpl;
                by rewrite ?app_nil_r, <- !app_assoc.
        -- simpl. intros [?|?]; done.
      * exists [refresh_request (headers (authorized p)) tok].
        split; [|split; [simpl; lia|split; [done|]]].
        -- unfold _make_request, try_except. rewrite Hb.
           unfold in_env, logging_error, emit, modify.
           cbn [fst snd trace world].
           unfold sent_of in *. rewrite omap_app, Hsent.
           cbn [trace]. rewrite omap_app. simpl.
           by rewrite app_nil_r, <- !app_assoc.
        -- simpl. intros [?|?]; done.
    + (* a 401, without a token *)
      exists []. split; [|split; [simpl; lia|split; [|done]]].
      * unfold _make_request, try_except.
        rewrite (_make_request_body_plain payload p e r1 w1 Hw1) by (by right).
        rewrite _process_response_eq. cbn [fst snd trace].
        unfold sent_of. by rewrite omap_app.
      * intros r1' _ _ Hne. done.
    + exists []. split; [|split; [simpl; lia|split; [|done]]].
      * unfold _make_request, try_except.
        rewrite (_make_request_body_plain payload p e r1 w1 Hw1) by (by left).
        rewrite _process_response_eq. cbn [fst snd trace].
        unfold sent_of. by rewrite omap_app.
      * simpl. intros r1' [= <-] Hs'. done.
  - exists []. split; [|split; [simpl; lia|split; [done|done]]].
    unfold _make_request, try_except.
    rewrite _make_request_body_eq. unfold bind at 1.
    rewrite (send_request_raises payload (authorized p) e ex w1 Hw1).
    unfold in_env, logging_error, emit, modify. cbn [fst snd trace world].
    unfold sent_of, request_failed_log. rewrite !omap_app. simpl.
    destruct (is_RequestException ex); simpl; by rewrite ?app_nil_r.
Qed.

End MoreRun.

(** ** What a run assigns *)

#[global] Instance same_credentials_preorder : PreOrder same_credentials.
Proof.
  split.
  - by intros p.
  - intros p1 p2 p3 H12 H23. unfold same_credentials in *. congruence.
Qed.

#[global] Instance same_other_headers_preorder : PreOrder same_other_headers.
Proof.
  split.
  - by intros p k Hk.
  - intros p1 p2 p3 H12 H23 k Hk. rewrite (H23 k Hk). by apply H12.
Qed.

#[global] Instance unsaved_preorder : PreOrder unsaved.
Proof.
  split.
  - by intros p Hs.
  - intros p1 p2 p3 H12 H23 Hs. destruct (H12 Hs) as [Hs2 Hr2].
    destruct (H23 Hs2) as [Hs3 Hr3]. split; [done|congruence].
Qed.

#[global] Instance grown_preorder : PreOrder grown.
Proof.
  split.
  - intros p. split; [done|]. apply Forall2_same_length_lookup_2; [done|].
    intros i cr cr' H1 H2. rewrite H1 in H2. by injection H2 as <-.
  - intros p1 p2 p3 [Hr12 Hc12] [Hr23 Hc23]. split; [by etransitivity|].
    eapply Forall2_trans; [|exact Hc12|exact Hc23].
    intros cr1 cr2 cr3 [Hc1 Hp1] [Hc2 Hp2]. split; [congruence|by etransitivity].
Qed.

Section Assignments.
Context {W : Type} `{!Platform W} {Str0 : Str}.
Context (R : relation Pyllow) `{!PreOrder R}.
Hypothesis R_authorization : forall p v,
  R p (set_headers (<["Authorization" := v]> (headers p)) p).
Hypothesis R_token : forall p t t',
  token p = Some t -> credentials t' = credentials t ->
  R p (set_token (Some t') p).
Hypothesis R_results : forall p body,
  save_output p = true -> R p (set_results (results p ++ [body]) p).
Hypothesis R_condition_results : forall p r,
  R p (set_condition_results
         (map (process_condition_result r) (condition_results p)) p).
Hypothesis R_completed : forall p,
  R p (set_completed_requests (completed_requests p + 1) p).

Lemma stable_process_response_on_self r :
  stable (on_self R) (_process_response (W:=W) r).
Proof.
  intros [p e]. rewrite _process_response_eq. unfold on_self. cbn [fst snd].
  destruct (save_output p) eqn:Hs.
  - etransitivity; [apply (R_results p (text r) Hs)|].
    apply (R_condition_results (set_results (results p ++ [text r]) p) r).
  - apply R_condition_results.
Qed.

Lemma stable_set_authorization_on_self :
  stable (on_self R) (set_authorization (W:=W)).
Proof.
  unfold set_authorization. stable_go.
  - apply (stable_call_token_on_self R (kept credentials)).
    + apply stable_read_self_on_self. typeclasses eauto.
    + intros p t t' Ht Hk. by apply R_token with t.
  - apply stable_update_self_on_self. intros p. apply R_authorization.
Qed.

Lemma stable__make_request_on_self payload :
  stable (on_self R) (_make_request (W:=W) payload).
Proof.
  unfold _make_request, _make_request_body, send_request.
  stable_go;
    first [ apply stable_in_env_on_self; typeclasses eauto
          | apply stable_read_self_on_self; typeclasses eauto
          | apply stable_set_authorization_on_self
          | apply stable_process_response_on_self
          | idtac ].
  apply (stable_call_token_on_self R (kept credentials)).
  - apply stable_refresh_credentials.
  - intros p t t' Ht Hk. by apply R_token with t.
Qed.

Lemma stable_dispatch_on_self payload :
  stable (on_self R) (dispatch (W:=W) payload).
Proof.
  unfold dispatch, _log_progress.
  stable_go;
    first [ apply stable_in_env_on_self; typeclasses eauto
          | apply stable_read_self_on_self; typeclasses eauto
          | apply stable__make_request_on_self
          | apply stable_update_self_on_self; intros p; apply R_completed ].
Qed.

Lemma stable_run_loop_on_self : stable (on_self R) (run_loop (W:=W)).
Proof.
  unfold run_loop, run_iteration.
  stable_go;
    first [ apply stable_read_self_on_self; typeclasses eauto
          | apply stable_dispatch_on_self ].
Qed.

(** Every assignment of a run is one of the five above. *)
Lemma stable_run_on_self : stable (on_self R) (run (W:=W)).
Proof.
  intros s. unfold on_self. rewrite run_object. apply stable_run_loop_on_self.
Qed.

End Assignments.

Section MoreInvariants.
Context {W : Type} `{!Platform W} {Str0 : Str}.

(** X10: a run never replaces or drops the token of the orchestrator and never
    changes its endpoint, client id, client secret or key paths: a refresh
    assigns the access token and the refresh token only. *)
Theorem run_keeps_credentials (s : Pyllow * Env W) :
  option_map credentials (token (fst (snd (run s)))) =
    option_map credentials (token (fst s)) /\
  (forall headers t e,
     credentials (fst (snd (refresh_access_token (W:=W) headers (t, e))))
       = credentials t).
Proof.
  split.
  - apply (stable_run_on_self same_credentials); try (by intros []).
    intros p t t' Ht Hc. unfold same_credentials.
    destruct p. simpl in *. rewrite Ht. simpl. by rewrite Hc.
  - intros headers t e. apply (stable_refresh_credentials headers (t, e)).
Qed.

(** X11: a run changes no header other than Authorization. *)
Theorem run_keeps_other_headers (s : Pyllow * Env W) (k : string) :
  k <> "Authorization" ->
  headers (fst (snd (run s))) !! k = headers (fst s) !! k.
Proof.
  intros Hk. revert k Hk.
  apply (stable_run_on_self same_other_headers).
  - intros p v k Hk. destruct p. simpl. by rewrite lookup_insert_ne.
  - intros p t t' _ _ k Hk. by destruct p.
  - intros p body _ k Hk. by destruct p.
  - intros p r k Hk. by destruct p.
  - intros p k Hk. by destruct p.
Qed.

Lemma grown_of_same (p p' : Pyllow) :
  results p' = results p -> condition_results p' = condition_results p ->
  grown p p'.
Proof.
  intros Hr Hc. unfold grown. rewrite Hr, Hc. split; [reflexivity|].
  apply Forall_Forall2_diag, Forall_forall. intros cr _. split; reflexivity.
Qed.

Lemma grown_results (p : Pyllow) (body : string) :
  grown p (set_results (results p ++ [body]) p).
Proof.
  split.
  - destruct p; simpl. apply prefix_app_r. reflexivity.
  - destruct p; simpl. apply Forall_Forall2_diag, Forall_forall.
    intros cr _. split; reflexivity.
Qed.

Lemma grown_condition_results (p : Pyllow) (r : Response) :
  grown p (set_condition_results
             (map (process_condition_result r) (condition_results p)) p).
Proof.
  split.
  - by destruct p.
  - destruct p; simpl.
    apply Forall2_fmap_r, Forall_Forall2_diag, Forall_forall.
    intros cr _. unfold compose, process_condition_result. cbn beta.
    destruct (condition_matches (condition cr) r); simpl;
      (split; [reflexivity|]); [apply prefix_app_r|]; reflexivity.
Qed.

Lemma stable_run_grown : stable (on_self grown) (run (W:=W)).
Proof.
  apply (stable_run_on_self grown).
  - intros p v. apply grown_of_same; by destruct p.
  - intros p t t' _ _. apply grown_of_same; by destruct p.
  - intros p body _. apply grown_results.
  - apply grown_condition_results.
  - intros p. apply grown_of_same; by destruct p.
Qed.

End MoreInvariants.

(** ** What a run collects *)

Lemma grown_conditions (p p' : Pyllow) :
  grown p p' ->
  map condition (condition_results p') = map condition (condition_results p).
Proof.
  intros [_ Hc]. induction Hc as [|cr cr' l l' [Hcond _] _ IH]; [done|].
  simpl. by rewrite Hcond, IH.
Qed.

Lemma condition_results_init {Str0 : Str} (a : InitArgs) :
  map condition (condition_results (Pyllow_init a)) = conditions (Pyllow_init a) /\
  Forall (fun cr => cr_results cr = []) (condition_results (Pyllow_init a)).
Proof.
  simpl. generalize (list_or (arg_conditions a) []). intros cs. split.
  - induction cs as [|c cs IH]; [done|]. simpl. by rewrite IH.
  - apply Forall_fmap, Forall_forall. by intros c _.
Qed.

Section MoreCollected.
Context {W : Type} `{!Platform W} {Str0 : Str}.

(** X12: every condition has exactly one condition result, with no body at
    construction, and keeps it for the whole run: the conditions of the
    condition results are, in order, the conditions given, before and after
    [run]. *)
Theorem condition_results_track_conditions (a : InitArgs) (s : Pyllow * Env W) :
  map condition (condition_results (Pyllow_init a)) = conditions (Pyllow_init a) /\
  Forall (fun cr => cr_results cr = []) (condition_results (Pyllow_init a)) /\
  map condition (condition_results (fst (snd (run s)))) =
    map condition (condition_results (fst s)) /\
  conditions (fst (snd (run s))) = conditions (fst s).
Proof.
  destruct (condition_results_init a) as [Hc He].
  split; [exact Hc|]. split; [exact He|]. split.
  - apply grown_conditions, (stable_run_grown s).
  - apply (stable_run_on_self (kept conditions)); by intros [].
Qed.

(** X13: a run only appends to what is collected: [results] before the run is
    a prefix of [results] after it, and so are the bodies of every condition
    result, which stays at its index with its condition. *)
Theorem results_only_grow (s : Pyllow * Env W) :
  results (fst s) `prefix_of` results (fst (snd (run s))) /\
  forall i cr,
    condition_results (fst s) !! i = Some cr ->
    exists cr',
      condition_results (fst (snd (run s))) !! i = Some cr' /\
      condition cr' = condition cr /\
      cr_results cr `prefix_of` cr_results cr'.
Proof.
  destruct (stable_run_grown s) as [Hr Hc]. split; [exact Hr|].
  intros i cr Hi. destruct (Forall2_lookup_l _ _ _ _ _ Hc Hi) as (cr' & Hi' & H').
  by exists cr'.
Qed.

(** X14: processing is not idempotent: a response processed twice is collected
    twice, in [results] when the output is saved and in the bodies of every
    condition it matches. *)
Theorem process_twice_appends_twice (r : Response) (p : Pyllow) (e : Env W) :
  let s2 := snd (bind (_process_response r) (fun _ => _process_response r) (p, e)) in
  results (fst s2) =
    (if save_output p then results p ++ [text r; text r] else results p)%list /\
  forall i cr,
    condition_results p !! i = Some cr ->
    condition_results (fst s2) !! i =
      Some (MkConditionResult (condition cr)
              (if condition_matches (condition cr) r
               then (cr_results cr ++ [text r; text r])%list
               else cr_results cr)).
Proof.
  unfold bind. rewrite _process_response_eq, _process_response_eq.
  cbn [fst snd].
  assert (Hcr : forall (crs : list ConditionResult) i cr,
    crs !! i = Some cr ->
    map (process_condition_result r) (map (process_condition_result r) crs) !! i =
      Some (MkConditionResult (condition cr)
              (if condition_matches (condition cr) r
               then (cr_results cr ++ [text r; text r])%list
               else cr_results cr))).
  { intros crs i cr Hi. rewrite !list_lookup_fmap, Hi. simpl.
    unfold process_condition_result at 2.
    destruct (condition_matches (condition cr) r) eqn:Hm.
    - unfold process_condition_result. simpl. rewrite Hm.
      by rewrite <- app_assoc.
    - unfold process_condition_result. rewrite Hm. by destruct cr. }
  destruct p as [? ? ? ? ? ? so ? ? ? ? ? ? res ? ? crs]. simpl.
  destruct so; simpl; (split; [|apply Hcr]).
  - by rewrite <- app_assoc.
  - reflexivity.
Qed.

End MoreCollected.

(** X15: a condition whose messages hold the empty string puts no constraint
    on the body: with no status codes it matches every response. *)
Theorem empty_message_matches_all (c : Condition) (ms : list string)
    (r : Response) :
  messages c = Some ms ->
  EmptyString ∈ ms ->
  no_constraint (status_codes c) ->
  condition_matches c r = true.
Proof.
  intros Hms Hin Hst. apply condition_matches_iff. split; [by left|].
  right. exists ms. split; [done|]. exists EmptyString. split; [done|].
  exists EmptyString, (text r). by rewrite !append_empty.
Qed.

(** ** Saving *)

Section MoreSaving.
Context {W : Type} `{!Platform W} {Str0 : Str}.

(** [write_file] in closed form. *)
Lemma write_file_eq path mode lines (e : Env W) :
  write_file path mode lines e =
    match write_lines path mode lines (world e) with
    | (Return _, w') =>
        (Return tt, MkEnv w' (trace e ++ [Wrote path mode lines]))
    | (Raise ex, w') => (Raise ex, MkEnv w' (trace e))
    end.
Proof.
  unfold write_file, bind, emit, modify.
  by destruct (write_lines path mode lines (world e)) as [[[]|ex] w'].
Qed.

(** X16: [_save_results] opens the output file for appending exactly when
    [append_logs] is set and the file exists, and for overwriting otherwise,
    and writes the results in order; an IOError of the write is logged and
    swallowed, any other exception goes on to the caller; the object is
    never changed. *)
Theorem save_results_outcomes (p : Pyllow) (e : Env W) :
  let mode :=
    if append_logs p && os_path_exists (output_file p) (world e)
    then "a" else "w" in
  _save_results (p, e) =
    match write_lines (output_file p) mode (results p) (world e) with
    | (Return _, w') =>
        (Return tt,
         (p, MkEnv w' (trace e ++
               [Wrote (output_file p) mode (results p);
                LogInfo ("All results saved to " ++ output_file p)])))
    | (Raise ex, w') =>
        if is_IOError ex
        then (Return tt,
              (p, MkEnv w' (trace e ++
                    [LogError ("Error saving results: " ++ exn_msg ex)])))
        else (Raise ex, (p, MkEnv w' (trace e)))
    end.
Proof.
  intros mode.
  unfold _save_results, bind, read_self, in_env, open_mode, try_except.
  cbn [fst snd]. rewrite write_file_eq. fold mode.
  destruct (write_lines (output_file p) mode (results p) (world e))
    as [[[]|ex] w'].
  - unfold logging_info, emit, modify. cbn [fst snd world trace].
    by rewrite <- app_assoc.
  - destruct (is_IOError ex); [|done].
    unfold logging_error, emit, modify. reflexivity.
Qed.

Lemma _save_condition_results_eq (p : Pyllow) (e : Env W) :
  _save_condition_results (p, e) =
    for_each (condition_results p) (save_condition (append_logs p)) (p, e).
Proof. reflexivity. Qed.


(** One condition result, in closed form. *)
Lemma save_condition_eq append (cr : ConditionResult) (p : Pyllow) (e : Env W) :
  save_condition append cr (p, e) =
    match cond_output_file (condition cr) with
    | Some path =>
        if writes_file cr then
          let mode := if append && os_path_exists path (world e)
                      then "a" else "w" in
          match write_lines path mode (cr_results cr) (world e) with
          | (Return _, w') =>
              (Return tt,
               (p, MkEnv w' (trace e ++
                     [Wrote path mode (cr_results cr);
                      LogInfo ("Results for condition saved to " ++ path)])))
          | (Raise ex, w') =>
              if is_IOError ex
              then (Return tt,
                    (p, MkEnv w' (trace e ++
                          [LogError ("Error saving condition results to "
                                       ++ path ++ ": " ++ exn_msg ex)])))
              else (Raise ex, (p, MkEnv w' (trace e)))
          end
        else (Return tt, (p, e))
    | None => (Return tt, (p, e))
    end.
Proof.
  unfold save_condition, writes_file.
  destruct (cond_output_file (condition cr)) as [path|]; [|done].
  destruct (cr_results cr) as [|body bodies] eqn:Hres; [done|].
  destruct (String.eqb path EmptyString); [done|]. simpl negb. cbn iota.
  unfold bind, in_env, open_mode, try_except. cbn [fst snd].
  rewrite write_file_eq.
  destruct (write_lines path _ (body :: bodies) (world e)) as [[[]|ex] w'].
  - unfold logging_info, emit, modify. cbn [fst snd world trace].
    by rewrite <- app_assoc.
  - destruct (is_IOError ex); [|done].
    unfold logging_error, emit, modify. reflexivity.
Qed.

Lemma for_each_save_condition append (crs : list ConditionResult)
    (p : Pyllow) (e : Env W) :
  io_errors_only ->
  exists e' evs,
    for_each crs (save_condition append) (p, e) = (Return tt, (p, e')) /\
    trace e' = (trace e ++ evs)%list /\
    saved_trace crs evs.
Proof.
  intros Hio. revert e. induction crs as [|cr crs IH]; intros e.
  - exists e, []. rewrite app_nil_r. repeat split. constructor.
  - simpl for_each. unfold bind. rewrite save_condition_eq.
    destruct (cond_output_file (condition cr)) as [path|] eqn:Hpath.
    + destruct (writes_file cr) eqn:Hw.
      * cbv zeta.
        destruct (write_lines path _ (cr_results cr) (world e))
          as [[[]|ex] w'] eqn:Hwr.
        -- destruct (IH (MkEnv w' (trace e ++
                 [Wrote path
                    (if append && os_path_exists path (world e) then "a" else "w")
                    (cr_results cr);
                  LogInfo ("Results for condition saved to " ++ path)])))
             as (e' & evs & Hf & Ht & Hs).
           exists e'. eexists. split; [exact Hf|]. split.
           ++ rewrite Ht. cbn [trace]. rewrite <- app_assoc. reflexivity.
           ++ simpl. by eapply saved_written.
        -- rewrite (Hio _ _ _ _ _ _ Hwr).
           destruct (IH (MkEnv w' (trace e ++
                 [LogError ("Error saving condition results to "
                              ++ path ++ ": " ++ exn_msg ex)])))
             as (e' & evs & Hf & Ht & Hs).
           exists e'. eexists. split; [exact Hf|]. split.
           ++ rewrite Ht. cbn [trace]. rewrite <- app_assoc. reflexivity.
           ++ simpl. by eapply saved_failed.
      * destruct (IH e) as (e' & evs & Hf & Ht & Hs).
        exists e', evs. split; [exact Hf|]. split; [exact Ht|].
        by apply saved_skipped.
    + destruct (IH e) as (e' & evs & Hf & Ht & Hs).
      exists e', evs. split; [exact Hf|]. split; [exact Ht|].
      apply saved_skipped; [|done]. unfold writes_file. by rewrite Hpath.
Qed.


Lemma save_condition_results_eq_returns (p : Pyllow) (e : Env W) :
  io_errors_only ->
  exists e', _save_condition_results (p, e) = (Return tt, (p, e')).
Proof.
  intros Hio. rewrite _save_condition_results_eq.
  destruct (for_each_save_condition (append_logs p) (condition_results p) p e Hio)
    as (e' & evs & Hf & _). by exists e'.
Qed.

Lemma _save_results_returns (s : Pyllow * Env W) :
  io_errors_only -> fst (_save_results s) = Return tt.
Proof.
  intros Hio. destruct s as [p e].
  unfold _save_results, bind, read_self, in_env, open_mode, try_except.
  cbn [fst snd]. rewrite write_file_eq.
  destruct (write_lines (output_file p) _ (results p) (world e))
    as [[[]|ex] w'] eqn:Hwr; [done|].
  by rewrite (Hio _ _ _ _ _ _ Hwr).
Qed.

(** What follows the loop in [run] returns when writes fail with IOErrors
    only. *)
Lemma run_saving_returns (s1 : Pyllow * Env W) :
  io_errors_only ->
  fst ((let* self := read_self in
        (if save_output self then _save_results else ret tt) >>
        _save_condition_results) s1) = Return tt.
Proof.
  intros Hio.
  unfold bind at 1, read_self at 1. cbn [fst snd]. cbn beta iota.
  unfold bind at 1.
  assert (Hsave : exists s2,
    (if save_output (fst s1) then _save_results else ret tt) s1 = (Return tt, s2)).
  { destruct (save_output (fst s1)).
    - pose proof (_save_results_returns s1 Hio) as Hr.
      destruct (_save_results s1) as [r s2]. simpl in Hr. subst r. by exists s2.
    - by exists s1. }
  destruct Hsave as [[p2 e2] ->].
  destruct (save_condition_results_eq_returns p2 e2 Hio) as [e3 ->]. done.
Qed.

(** X18: on a platform whose writes fail with IOErrors only, no request
    failure, refresh failure or write failure reaches the caller of [run]:
    [run] raises only what [time.sleep] raised between two dispatches, and
    returns when that pause returns. *)
Theorem run_returns_normally (a : InitArgs) (e : Env W) :
  io_errors_only ->
  (forall ex, fst (run (Pyllow_init a, e)) = Raise ex ->
     (0 ?= arg_sleep_time a)%Qc = Lt /\
     exists w, fst (time_sleep (arg_sleep_time a) w) = Raise ex) /\
  (pause_returns (arg_sleep_time a) ->
   fst (run (Pyllow_init a, e)) = Return tt).
Proof.
  intros Hio.
  assert (Hrun : forall ex, fst (run (Pyllow_init a, e)) = Raise ex ->
                   fst (run_loop (Pyllow_init a, e)) = Raise ex).
  { intros ex. unfold run. unfold bind at 1.
    destruct (run_loop (Pyllow_init a, e)) as [[[]|ex'] s1]; [|done].
    cbn [fst]. intros Hr. pose proof (run_saving_returns s1 Hio) as Hs.
    unfold run in Hs. rewrite Hs in Hr. discriminate. }
  split.
  - intros ex Hr. apply (run_loop_init_raises a e ex). by apply Hrun.
  - intros Hpause.
    destruct (run (Pyllow_init a, e)) as [[[]|ex] s1] eqn:Hr; [done|].
    specialize (Hrun ex ltac:(reflexivity)).
    rewrite (run_loop_init_returns a e Hpause) in Hrun. discriminate.
Qed.

End MoreSaving.

(** ** The whole run *)

Section MoreWholeRun.
Context {W : Type} `{!Platform W} {Str0 : Str}.

(** X19: a write error that is not an IOError is not caught: when the
    output is saved, the loop of requests has been through and the write of
    the output file then raises such an exception, [run] raises it. *)
Theorem run_aborts_on_other_write_error (a : InitArgs) (e : Env W) (ex : exn) :
  arg_save_output a = true ->
  is_IOError ex = false ->
  let after := run_loop (Pyllow_init a, e) in
  let w := world (snd (snd after)) in
  let mode :=
    if arg_append_logs a && os_path_exists (arg_output_file a) w
    then "a" else "w" in
  fst after = Return tt ->
  fst (write_lines (arg_output_file a) mode (results (fst (snd after))) w) =
    Raise ex ->
  fst (run (Pyllow_init a, e)) = Raise ex.
Proof.
  intros Hsave Hio after w mode Hloop Hfail.
  pose proof (stable_run_loop_on_self
                (kept (fun p => (save_output p, output_file p, append_logs p)))
                ltac:(by intros []) ltac:(by intros []) ltac:(by intros [])
                ltac:(by intros []) ltac:(by intros [])
                (Pyllow_init a, e)) as Hkept.
  subst w mode after. unfold run. unfold bind at 1.
  destruct (run_loop (Pyllow_init a, e)) as [r [p1 e1]]. simpl in Hloop. subst r.
  unfold on_self, kept in Hkept. cbn [fst snd] in Hkept, Hfail.
  injection Hkept as Hso Hof Hal.
  change (save_output (Pyllow_init a)) with (arg_save_output a) in Hso.
  change (output_file (Pyllow_init a)) with (arg_output_file a) in Hof.
  change (append_logs (Pyllow_init a)) with (arg_append_logs a) in Hal.
  rewrite Hsave in Hso.
  unfold bind at 1, read_self at 1. cbn [fst snd]. cbn beta iota.
  rewrite Hso. unfold bind at 1.
  unfold _save_results, bind, read_self, in_env, open_mode, try_except.
  cbn [fst snd]. rewrite write_file_eq. rewrite Hof, Hal.
  destruct (write_lines (arg_output_file a) _ (results p1) (world e1)) as [r w'].
  simpl in Hfail. subst r. by rewrite Hio.
Qed.

Lemma stable_dispatch_not_wrote payload :
  stable (on_trace not_wrote) (dispatch (W:=W) payload).
Proof.
  unfold dispatch, _log_progress.
  stable_go;
    repeat first
      [ apply stable_in_env_on_trace
      | apply stable_update_self_on_trace
      | apply stable_read_self_on_trace
      | apply stable__make_request_appends; by intros
      | apply stable_sleep_appends; exact I
      | apply stable_emit_appends; exact I ].
Qed.

Lemma stable_run_loop_not_wrote : stable (on_trace not_wrote) (run_loop (W:=W)).
Proof.
  unfold run_loop, run_iteration.
  stable_go;
    first [ apply stable_read_self_on_trace
          | apply stable_dispatch_not_wrote ].
Qed.

Lemma save_condition_writes append (crs : list ConditionResult)
    (cr : ConditionResult) :
  cr ∈ crs ->
  stable (on_trace (condition_write crs)) (save_condition (W:=W) append cr).
Proof.
  intros Hin [p e]. unfold on_trace. rewrite save_condition_eq.
  destruct (cond_output_file (condition cr)) as [path|] eqn:Hpath;
    [|cbn [snd]; reflexivity].
  destruct (writes_file cr) eqn:Hw; [|cbn [snd]; reflexivity].
  cbv zeta.
  destruct (write_lines path _ (cr_results cr) (world e)) as [[[]|ex] w'].
  - cbn [snd trace]. eexists. split; [reflexivity|].
    repeat constructor. exists cr. repeat split; try done.
    unfold writes_file in Hw. rewrite Hpath in Hw.
    by destruct (cr_results cr).
  - destruct (is_IOError ex); cbn [snd trace].
    + eexists. split; [reflexivity|]. by repeat constructor.
    + reflexivity.
Qed.

Lemma stable_for_each_in {St A} (R : relation St) `{!PreOrder R}
    (xs : list A) (body : A -> M St unit) :
  (forall x, x ∈ xs -> stable R (body x)) -> stable R (for_each xs body).
Proof.
  induction xs as [|x xs IH]; intros Hb; simpl.
  - by apply stable_ret.
  - apply stable_bind; [done| |intros _].
    + apply Hb. by left.
    + apply IH. intros y Hy. apply Hb. by right.
Qed.

Lemma _save_condition_results_writes (p : Pyllow) (e : Env W) :
  appends (condition_write (condition_results p)) (trace e)
    (trace (snd (snd (_save_condition_results (p, e))))) /\
  fst (snd (_save_condition_results (p, e))) = p.
Proof.
  rewrite _save_condition_results_eq. split.
  - apply (stable_for_each_in (on_trace (condition_write (condition_results p)))
             (condition_results p) (save_condition (append_logs p))).
    intros cr Hin. by apply save_condition_writes.
  - assert (Hs : stable (on_self eq)
                   (for_each (condition_results p)
                      (save_condition (W:=W) (append_logs p)))).
    { apply stable_for_each; [typeclasses eauto|].
      intros cr [p' e']. unfold on_self. rewrite save_condition_eq.
      destruct (cond_output_file (condition cr)) as [path|]; [|reflexivity].
      destruct (writes_file cr); [|reflexivity]. cbv zeta.
      destruct (write_lines path _ (cr_results cr) (world e')) as [[[]|ex] w'];
        [reflexivity|].
      destruct (is_IOError ex); reflexivity. }
    symmetry. exact (Hs (p, e)).
Qed.

(** X20: with [save_output] off, a run collects nothing in [results] and
    writes no file but those of its conditions: every file written during
    the run is the output file of a condition result, written with its
    bodies, of which there is at least one. *)
Theorem save_output_off (s : Pyllow * Env W) :
  save_output (fst s) = false ->
  results (fst (snd (run s))) = results (fst s) /\
  forall path mode lines,
    Wrote path mode lines ∈ trace (snd (snd (run s))) ->
    Wrote path mode lines ∈ trace (snd s) \/
    exists cr,
      cr ∈ condition_results (fst (snd (run s))) /\
      cond_output_file (condition cr) = Some path /\
      cr_results cr = lines /\ lines <> [].
Proof.
  intros Hoff.
  assert (Hun : unsaved (fst s) (fst (snd (run_loop s)))).
  { apply (stable_run_loop_on_self unsaved).
    - intros p v Hs. by destruct p.
    - intros p t t' _ _ Hs. by destruct p.
    - intros p body Hs Hs'. congruence.
    - intros p r Hs. by destruct p.
    - intros p Hs. by destruct p. }
  destruct (Hun Hoff) as [Hoff1 Hres1].
  rewrite run_object. split; [exact Hres1|].
  intros path mode lines Hin.
  pose proof (stable_run_loop_not_wrote s) as [evs1 [Ht1 Hevs1]].
  unfold run in Hin. unfold bind at 1 in Hin.
  destruct (run_loop s) as [[[]|ex] [p1 e1]]; cbn [fst snd] in *.
  - unfold bind at 1, read_self at 1 in Hin. cbn [fst snd] in Hin.
    cbn beta iota in Hin. rewrite Hoff1 in Hin.
    unfold bind at 1, ret at 1 in Hin.
    destruct (_save_condition_results_writes p1 e1) as [[evs2 [Ht2 Hevs2]] Hp].
    rewrite Ht2, Ht1 in Hin. rewrite !elem_of_app in Hin.
    destruct Hin as [[Hin|Hin]|Hin].
    + by left.
    + rewrite Forall_forall in Hevs1. by destruct (Hevs1 _ Hin).
    + rewrite Forall_forall in Hevs2. specialize (Hevs2 _ Hin). simpl in Hevs2.
      by right.
  - rewrite Ht1, elem_of_app in Hin. destruct Hin as [Hin|Hin]; [by left|].
    rewrite Forall_forall in Hevs1. by destruct (Hevs1 _ Hin).
Qed.

End MoreWholeRun.

Section MoreCounts.
Context {W : Type} `{!Platform W} {Str0 : Str}.

(** Saving sends no request and logs no progress line. *)
Lemma run_trace_after_loop (s : Pyllow * Env W) :
  appends not_sent (trace (snd (snd (run_loop s)))) (trace (snd (snd (run s)))).
Proof.
  unfold run. unfold bind at 1.
  destruct (run_loop s) as [[[]|ex] s1]; [|cbn [snd]; reflexivity].
  match goal with
  | |- appends _ _ (trace (snd (snd (?m s1)))) =>
      assert (Hm : stable (on_trace not_sent) m)
  end.
  { unfold _save_results, _save_condition_results, write_file, logging_info,
      logging_error.
    stable_go;
      repeat first
        [ apply stable_in_env_on_trace
        | apply stable_read_self_on_trace
        | apply stable_open_mode_appends
        | apply stable_platform_appends
        | apply stable_emit_appends; exact I
        | apply stable_bind; [typeclasses eauto| |intros ?] ]. }
  exact (Hm s1).
Qed.

(** The requests of one dispatch: the first one and at most two more. *)
Lemma dispatch_sends payload (p : Pyllow) (e : Env W) :
  exists reqs,
    sent_of (trace (snd (snd (dispatch payload (p, e))))) =
      (sent_of (trace e) ++ reqs)%list /\
    (1 <= length reqs <= 3)%nat.
Proof.
  destruct (_make_request_sends payload p e) as (reqs & Hs & Hlen & _).
  exists (build_request payload (authorized p) :: reqs).
  split; [|simpl; lia].
  rewrite dispatch_eq. cbv zeta. rewrite <- Hs.
  destruct (total_requests _ =? 0)%Z; cbn [fst snd trace]; [done|].
  destruct (0 ?= sleep_time _)%Qc;
    try destruct (time_sleep _ _) as [[[]|ex] w'];
    cbn [fst snd trace]; unfold sent_of; rewrite ?omap_app; simpl;
    by rewrite ?app_nil_r.
Qed.

Lemma for_each_dispatch_sends (ps : list pydict) (p : Pyllow) (e : Env W) :
  total_requests p <> 0 ->
  exists reqs,
    sent_of (trace (snd (snd (for_each ps dispatch (p, e))))) =
      (sent_of (trace e) ++ reqs)%list /\
    (length reqs <= 3 * length ps)%nat /\
    (ps <> [] -> (1 <= length reqs)%nat) /\
    (fst (for_each ps dispatch (p, e)) = Return tt ->
     (length ps <= length reqs)%nat).
Proof.
  revert p e. induction ps as [|payload ps IH]; intros p e Htotal.
  - exists []. simpl. by rewrite app_nil_r.
  - destruct (dispatch_sends payload p e) as (reqs1 & Hs1 & Hl1).
    destruct (dispatch_outcome payload p e Htotal)
      as (r & p1 & e1 & evs & Hd & Hst & _).
    destruct (static_total _ _ Hst) as (Htot & _).
    simpl for_each. unfold bind.
    rewrite Hd in Hs1 |- *. cbn [fst snd] in Hs1.
    destruct r as [[]|ex].
    + destruct (IH p1 e1) as (reqs2 & Hs2 & Hl2 & _ & Hall); [congruence|].
      exists (reqs1 ++ reqs2)%list.
      rewrite Hs2, Hs1, <- app_assoc. split; [done|].
      rewrite length_app. simpl length. split; [lia|]. split; [lia|].
      intros Hr. specialize (Hall Hr). lia.
    + exists reqs1. cbn [fst snd]. split; [exact Hs1|].
      simpl length. split; [lia|]. split; [lia|]. discriminate.
Qed.

(** X21: a dispatch sends between one and three requests (the request, the
    refresh, the retry), so a run built with at least one loop sends at
    least one request and at most three times [total_requests], and at
    least [total_requests] when its loop returns, as it does when the pause
    between dispatches returns; saving sends none. *)
Theorem run_sends_bounded (a : InitArgs) (e : Env W) :
  1 <= arg_loops a ->
  (forall payload (p : Pyllow) (e0 : Env W),
     exists reqs,
       sent_of (trace (snd (snd (dispatch payload (p, e0))))) =
         (sent_of (trace e0) ++ reqs)%list /\
       (1 <= length reqs <= 3)%nat) /\
  exists reqs,
    sent_of (trace (snd (snd (run (Pyllow_init a, e))))) =
      (sent_of (trace e) ++ reqs)%list /\
    1 <= Z.of_nat (length reqs) <= 3 * total_requests (Pyllow_init a) /\
    (fst (run_loop (Pyllow_init a, e)) = Return tt \/
     pause_returns (arg_sleep_time a) ->
     total_requests (Pyllow_init a) <= Z.of_nat (length reqs)).
Proof.
  intros HL. split; [apply dispatch_sends|].
  pose proof (total_requests_init_pos a HL) as Hpos.
  pose proof (length_schedule_init a ltac:(lia)) as Hlen.
  destruct (appends_sent_of _ _ (run_trace_after_loop (Pyllow_init a, e)))
    as [-> _].
  pose proof (run_loop_init_returns a e) as Hret.
  rewrite run_loop_schedule in Hret |- *. cbn [fst] in Hret |- *.
  destruct (for_each_dispatch_sends (schedule (Pyllow_init a)) (Pyllow_init a) e)
    as (reqs & Hs & Hl & Hone & Hall); [lia|].
  exists reqs. split; [exact Hs|].
  assert (Hne : schedule (Pyllow_init a) <> []).
  { intros Hnil. rewrite Hnil in Hlen. simpl length in Hlen. lia. }
  specialize (Hone Hne). split; [lia|].
  intros [Hr|Hpause]; [specialize (Hall Hr)|specialize (Hall (Hret Hpause))];
    lia.
Qed.

(** X22: built with at least one loop, a run logs the progress lines 1 of T,
    2 of T, ..., n of T, in this order and no other, T being
    [total_requests] and n the counter it ends with, between 1 and T; n is T
    when its loop returns, as it does when the pause between dispatches
    returns. *)
Theorem run_progress_lines (a : InitArgs) (e : Env W) :
  1 <= arg_loops a ->
  let T := total_requests (Pyllow_init a) in
  let n := completed_requests (fst (snd (run (Pyllow_init a, e)))) in
  1 <= n <= T /\
  progress_of (trace (snd (snd (run (Pyllow_init a, e))))) =
    (progress_of (trace e) ++
     map (fun i => (Z.of_nat i, T)) (seq 1 (Z.to_nat n)))%list /\
  (fst (run_loop (Pyllow_init a, e)) = Return tt \/
   pause_returns (arg_sleep_time a) -> n = T).
Proof.
  intros HL T n. subst n.
  destruct (appends_sent_of _ _ (run_trace_after_loop (Pyllow_init a, e)))
    as [_ ->].
  rewrite run_object.
  pose proof (run_loop_init_returns a e) as Hret.
  pose proof (length_schedule_init a ltac:(lia)) as Hlen.
  destruct (run_loop_init_prefix a e HL)
    as (n & r & p' & e' & evs & Hr & Hn & Hall & _ & Hc & Ht & Hd).
  rewrite Hr in Hret |- *. cbn [fst snd] in Hret |- *. rewrite Hc.
  fold T in Hn, Hall, Hd, Hlen.
  split; [exact Hn|]. split.
  - rewrite Ht. unfold progress_of at 1.
    rewrite omap_app. fold (progress_of (trace e)). fold (progress_of evs).
    rewrite (dispatch_trace_progress _ _ _ _ _ Hd). f_equal.
    rewrite length_take, Nat2Z.id.
    replace (n `min` length (schedule (Pyllow_init a)))%nat with n by lia.
    apply map_ext. intros i. by rewrite Z.add_0_l.
  - intros [Hloop|Hpause]; apply Hall; [exact Hloop | by apply Hret].
Qed.

(** X23: built with zero or a negative number of loops, a run sends no
    request, logs no progress line and collects nothing; its
    [total_requests] is then zero or negative and the counter stays 0. *)
Theorem no_loops_no_dispatch (a : InitArgs) (e : Env W) :
  arg_loops a <= 0 ->
  run_loop (Pyllow_init a, e) = (Return tt, (Pyllow_init a, e)) /\
  sent_of (trace (snd (snd (run (Pyllow_init a, e))))) = sent_of (trace e) /\
  progress_of (trace (snd (snd (run (Pyllow_init a, e))))) = progress_of (trace e) /\
  fst (snd (run (Pyllow_init a, e))) = Pyllow_init a /\
  total_requests (Pyllow_init a) <= 0.
Proof.
  intros HL.
  assert (Hloop : run_loop (Pyllow_init a, e) = (Return tt, (Pyllow_init a, e))).
  { by apply run_loop_no_loops. }
  split; [exact Hloop|].
  destruct (appends_sent_of _ _ (run_trace_after_loop (Pyllow_init a, e)))
    as [-> ->].
  rewrite run_object, Hloop. cbn [fst snd]. repeat split.
  pose proof (payloads_init_nonempty a) as Hne. simpl in *.
  destruct (is_POST (arg_method a)); [|done].
  destruct (list_or (arg_payloads a) [∅]); [done|]. simpl length. nia.
Qed.

End MoreCounts.

(** ** The extra properties on concrete runs *)

Lemma refresh_rotation_witness :
  exists d,
    sent_of (trace (snd (snd (refresh_access_token ∅
       (snd (refresh_access_token ∅
               (held_token, script [Return rotated_only]))))))) =
      [refresh_request ∅ held_token;
       MkRequest "POST" (token_endpoint held_token) ∅ (Some d) None true] /\
    d !! "refresh_token" = Some (PStr "new-refresh").
Proof.
  destruct (refresh_rotation (Platform0:=scripted) ∅ ∅ held_token (script [Return rotated_only])
              rotated_only (PDict {[ "refresh_token" := PStr "new-refresh" ]})
              ltac:(reflexivity) ltac:(reflexivity) ltac:(reflexivity))
    as (d & Hs & Hr & _).
  exists d. split; [exact Hs|].
  replace (rotated (PDict {[ "refresh_token" := PStr "new-refresh" ]}) held_token)
    with "new-refresh" in Hr by (vm_compute; reflexivity).
  exact Hr.
Defined.

Lemma extract_value_app_witness :
  _extract_value example_document (["a"] ++ ["b"]) =
    _extract_value (PDict {[ "b" := PStr "tok123" ]}) ["b"].
Proof.
  apply (extract_value_app example_document
           (PDict {[ "b" := PStr "tok123" ]}) ["a"] ["b"]).
  apply follows_step with (PDict {[ "b" := PStr "tok123" ]});
    [reflexivity | constructor].
Defined.

Lemma dispatch_without_retry_witness :
  results (fst (snd (_make_request ∅ (plain, script [Return fine])))) = ["fine"].
Proof.
  rewrite (dispatch_without_retry (Platform0:=scripted) ∅ plain (script [Return fine]) fine []
             ltac:(reflexivity) ltac:(left; simpl; lia)).
  vm_compute. reflexivity.
Defined.

Lemma dispatch_transport_failure_witness :
  fst (_make_request ∅ (plain, script [])) = Return tt /\
  results (fst (snd (_make_request ∅ (plain, script [])))) = [].
Proof.
  rewrite (dispatch_transport_failure (Platform0:=scripted) ∅ plain (script []) connection_refused []
             ltac:(reflexivity)).
  split; reflexivity.
Defined.

Lemma unauthenticated_first_request_witness :
  exists evs,
    trace (snd (snd (_make_request ∅ (unauthenticated, script [])))) =
      (trace (script []) ++ Sent (build_request ∅ unauthenticated) :: evs)%list /\
    req_headers (build_request ∅ unauthenticated) = headers unauthenticated.
Proof.
  apply (unauthenticated_first_request ∅ unauthenticated (script [])).
  right. exists newly_built. split; reflexivity.
Defined.

Lemma retry_with_bearer_none_witness :
  exists req2,
    sent_of (trace (snd (snd (_make_request ∅
       (guarded, script [Return denied; Return rotated_only; Return fine]))))) =
      (sent_of (trace (script [Return denied; Return rotated_only; Return fine]))
       ++ [build_request ∅ (authorized guarded);
           refresh_request (headers (authorized guarded)) held_token; req2])%list /\
    req_headers req2 !! "Authorization" = Some "Bearer None" /\
    option_map access_token
      (token (fst (snd (_make_request ∅
         (guarded, script [Return denied; Return rotated_only; Return fine])))))
      = Some None.
Proof.
  apply (retry_with_bearer_none ∅ guarded
           (script [Return denied; Return rotated_only; Return fine])
           held_token denied [Return rotated_only; Return fine]
           rotated_only [Return fine]
           (PDict {[ "refresh_token" := PStr "new-refresh" ]}));
    first [reflexivity | vm_compute; reflexivity].
Defined.

(** Half a second of sleep after the dispatch, then ten billion. *)
Lemma dispatch_progress_then_sleep_witness :
  let s := (Pyllow_init (pausing half_a_second (example_args "GET" None None 1)),
            script []) in
  let s' := (Pyllow_init
               (pausing ten_billion_seconds (example_args "GET" None None 1)),
             script []) in
  fst (dispatch ∅ s) = Return tt /\
  progress_of (trace (snd (snd (dispatch ∅ s)))) = [(1, 1)] /\
  last (trace (snd (snd (dispatch ∅ s)))) = Some (Slept half_a_second) /\
  fst (dispatch ∅ s') = Raise sleep_too_long /\
  last (trace (snd (snd (dispatch ∅ s')))) = Some (LogProgress 1 1).
Proof.
  intros s s'.
  rewrite (dispatch_progress_then_sleep (Platform0:=scripted) (Str0:=ascii_str)
             ∅ s ltac:(vm_compute; discriminate)).
  rewrite (dispatch_progress_then_sleep (Platform0:=scripted) (Str0:=ascii_str)
             ∅ s' ltac:(vm_compute; discriminate)).
  repeat split; vm_compute; reflexivity.
Defined.

Lemma run_keeps_other_headers_witness :
  headers (fst (snd (run (guarded, script [Return denied; Return fresh_tokens]))))
    !! "Accept" = Some "application/json".
Proof.
  rewrite (run_keeps_other_headers (Platform0:=scripted)
             (guarded, script [Return denied; Return fresh_tokens]) "Accept"
             ltac:(discriminate)).
  vm_compute. reflexivity.
Defined.

Lemma empty_message_matches_all_witness :
  condition_matches any_body (MkResponse 404 "not found" None) = true.
Proof.
  apply (empty_message_matches_all any_body ["error"; EmptyString]).
  - reflexivity.
  - apply list_elem_of_further, list_elem_of_here.
  - left. reflexivity.
Defined.

Lemma disk_full_io_errors_only : @io_errors_only unit (broken_disk disk_full).
Proof. intros path mode lines w ex w' [= <- _]. reflexivity. Qed.


Lemma run_returns_normally_witness :
  fst (run (Platform0:=broken_disk disk_full)
         (Pyllow_init (pausing half_a_second (example_args "GET" None None 2)),
          MkEnv tt [])) = Return tt.
Proof.
  destruct (run_returns_normally (Platform0:=broken_disk disk_full)
              (Str0:=ascii_str)
              (pausing half_a_second (example_args "GET" None None 2))
              (MkEnv tt []) disk_full_io_errors_only) as [_ Hret].
  apply Hret. intros _ w. reflexivity.
Defined.

Lemma run_aborts_on_other_write_error_witness :
  fst (run (Platform0:=broken_disk bad_encoding)
         (Pyllow_init (example_args "GET" None None 2), MkEnv tt []))
    = Raise bad_encoding.
Proof.
  apply (run_aborts_on_other_write_error (Platform0:=broken_disk bad_encoding)
           (Str0:=ascii_str)
           (example_args "GET" None None 2) (MkEnv tt []) bad_encoding);
    vm_compute; reflexivity.
Defined.

Lemma save_output_off_witness :
  results (fst (snd (run (Pyllow_init (watch_args 2),
                          script [Return fine; Return fine])))) = [].
Proof.
  apply (save_output_off (Pyllow_init (watch_args 2),
                          script [Return fine; Return fine])).
  reflexivity.
Defined.

Lemma run_sends_bounded_witness :
  exists reqs,
    sent_of (trace (snd (snd (run (Pyllow_init (example_args "GET" None None 3),
                                   script []))))) =
      (sent_of (trace (script [])) ++ reqs)%list /\
    3 <= Z.of_nat (length reqs) <= 9.
Proof.
  destruct (run_sends_bounded (Platform0:=scripted) (Str0:=ascii_str)
              (example_args "GET" None None 3) (script []) ltac:(simpl; lia))
    as (_ & reqs & Hs & Hb & Hlow).
  exists reqs. split; [exact Hs|].
  specialize (Hlow (or_intror scripted_pause_none)).
  change (total_requests (Pyllow_init (example_args "GET" None None 3)))
    with 3 in Hb, Hlow.
  lia.
Defined.

Lemma run_progress_lines_witness :
  progress_of (trace (snd (snd (run (Pyllow_init (example_args "GET" None None 3),
                                     script []))))) = [(1, 3); (2, 3); (3, 3)].
Proof.
  pose proof (run_progress_lines (Platform0:=scripted) (Str0:=ascii_str)
                (example_args "GET" None None 3) (script [])
                ltac:(simpl; lia)) as H.
  cbv zeta in H. destruct H as (_ & Hlines & Hall).
  rewrite Hlines, (Hall (or_intror scripted_pause_none)). reflexivity.
Defined.

Lemma no_loops_no_dispatch_witness :
  run_loop (Pyllow_init (example_args "POST" None None 0), script [Return fine]) =
    (Return tt,
     (Pyllow_init (example_args "POST" None None 0), script [Return fine])).
Proof.
  apply (no_loops_no_dispatch (example_args "POST" None None 0)
           (script [Return fine])).
  simpl. lia.
Defined.
